(** * Image asset store of the vgs backend

    A shallow embedding of the image routes of [server.js] (and of the
    earlier copy of the same server that lacks the authentication
    middleware):

    - the multer disk-storage [filename] callback,
    - [GET /api/images], [GET /api/images/:key],
    - [POST /api/upload] and [DELETE /api/images/:key],
    - [authMiddleware], [POST /api/login] and [POST /api/register].

    The MongoDB collection [pics] carries a unique index on [key], so it
    is a finite map from keys to the remaining fields of a document.  The
    upload directory is a finite map from paths to file contents.  The
    timestamps that mongoose adds to a document are read by no route and
    are left out.

    A character of a string stands for one UTF-16 code unit below 256. *)

From Stdlib Require Import Ascii String NArith DecimalString Bool List.
From stdpp Require Import gmap strings fin_maps.

Open Scope string_scope.

(** ** Strings *)

Module Js.

(** [String.prototype.replace] with a global, single-character class
    pattern: every code unit matching [p] is replaced by [by_]. *)
Fixpoint replace_all (p : ascii -> bool) (by_ : string) (s : string) : string :=
  match s with
  | EmptyString => EmptyString
  | String c rest =>
      (if p c then by_ else String c EmptyString) ++ replace_all p by_ rest
  end.

(** Truthiness of a string value: every string but the empty one. *)
Definition truthy (s : string) : bool :=
  match s with EmptyString => false | String _ _ => true end.

(** Truthiness of a property that is [undefined] or a string. *)
Definition truthy_opt (v : option string) : bool :=
  match v with None => false | Some s => truthy s end.

(** [v || d] for a property that is [undefined] or a string. *)
Definition or_default (v : option string) (d : string) : string :=
  match v with
  | Some s => if truthy s then s else d
  | None => d
  end.

(** [obj[key] = value] on an object made by [{}], for a string value:
    an own property is set, except for the key [__proto__], which reaches
    the prototype setter; that setter ignores a string and sets nothing. *)
Definition set_property (obj : gmap string string) (key value : string)
  : gmap string string :=
  if String.eqb key "__proto__" then obj else <[key := value]> obj.

(** Template-literal rendering of a non-negative integer. *)
Definition of_number (n : N) : string :=
  NilZero.string_of_uint (N.to_uint n).

End Js.

(** ** The multer disk-storage file name *)

Definition in_range (lo hi c : ascii) : bool :=
  (N_of_ascii lo <=? N_of_ascii c)%N && (N_of_ascii c <=? N_of_ascii hi)%N.

(** The character class [a-zA-Z0-9.\-_]. *)
Definition safe_char (c : ascii) : bool :=
  in_range "a" "z" c || in_range "A" "Z" c || in_range "0" "9" c
  || Ascii.eqb c "." || Ascii.eqb c "-" || Ascii.eqb c "_".

(** [file.originalname.replace(/[^a-zA-Z0-9.\-_]/g, "_")] *)
Definition safe (originalname : string) : string :=
  Js.replace_all (fun c => negb (safe_char c)) "_" originalname.

Module storage.

(** [filename(req, file, cb)]: [body_key] is [req.body.key] as it stands
    when multer asks for the name, [now] is [Date.now()]. *)
Definition filename (body_key : option string) (originalname : string) (now : N)
  : string :=
  let key := Js.or_default body_key "image" in
  Js.of_number now ++ "_" ++ key ++ "_" ++ safe originalname.

End storage.

(** ** [encodeURIComponent] *)

Definition hex_digit (n : N) : ascii :=
  if (n <? 10)%N then ascii_of_N (48 + n) else ascii_of_N (55 + n).

(** [%XX] for one octet. *)
Definition percent (octet : N) : string :=
  String "%" (String (hex_digit (octet / 16)) (String (hex_digit (octet mod 16)) "")).

(** The characters [encodeURIComponent] leaves alone:
    [A-Z a-z 0-9 - _ . ! ~ * ' ( )]. *)
Definition uri_unreserved (c : ascii) : bool :=
  in_range "a" "z" c || in_range "A" "Z" c || in_range "0" "9" c
  || existsb (Ascii.eqb c) (list_ascii_of_string "-_.!~*'()").

(** One code unit below 256: itself when unreserved, otherwise the
    percent-escaped octets of its UTF-8 encoding (one octet below 128,
    two from 128 on). *)
Definition encode_unit (c : ascii) : string :=
  let n := N_of_ascii c in
  if uri_unreserved c then String c ""
  else if (n <? 128)%N then percent n
  else percent (192 + n / 64) ++ percent (128 + n mod 64).

Fixpoint encodeURIComponent (s : string) : string :=
  match s with
  | EmptyString => EmptyString
  | String c rest => encode_unit c ++ encodeURIComponent rest
  end.

(** ** Documents, files and the two stores *)

Module Doc.
(** A document of the collection [pics] as a query returns it. *)
Record t := { key : string; url : string; filename : string }.
End Doc.

Module File.
(** [req.file] as multer leaves it; the routes read [filename] only. *)
Record t := { originalname : string; filename : string }.
End File.

(** [pics]: the documents, stored under their unique [key] as the pair
    [(url, filename)].
    [uploads]: the files of the upload directory, path to contents. *)
Record Store := {
  pics : gmap string (string * string);
  uploads : gmap string string
}.

(** What the process takes from its environment: [process.env.BASE_URL]
    (or its default), [UPLOAD_DIR], Node's [path.join] on two segments and
    [jwt.verify] against the configured secret. *)
Record Env := {
  BASE_URL : string;
  UPLOAD_DIR : string;
  path_join : string -> string -> string;
  jwt_verify : string -> bool
}.

(** Which of the calls a route makes fail during one request: a mongoose
    query rejects, [fs.unlink] hands an error to its callback. *)
Record Faults := {
  find_rejects : bool;
  findOne_rejects : bool;
  findOneAndUpdate_rejects : bool;
  findOneAndDelete_rejects : bool;
  unlink_errors : bool
}.

Definition no_faults : Faults :=
  {| find_rejects := false; findOne_rejects := false;
     findOneAndUpdate_rejects := false; findOneAndDelete_rejects := false;
     unlink_errors := false |}.

(** ** Asynchronous computations over the stores *)

Inductive outcome (A : Type) : Type :=
| Resolved (a : A)
| Rejected.
Arguments Resolved {A} a.
Arguments Rejected {A}.

Definition Async (A : Type) : Type := Store -> outcome A * Store.

Definition ret {A} (a : A) : Async A := fun st => (Resolved a, st).

Definition bind {A B} (m : Async A) (k : A -> Async B) : Async B :=
  fun st =>
    match m st with
    | (Resolved a, st') => k a st'
    | (Rejected, st') => (Rejected, st')
    end.

(** [try { body } catch (err) { handler }] *)
Definition try_catch {A} (body handler : Async A) : Async A :=
  fun st =>
    match body st with
    | (Resolved a, st') => (Resolved a, st')
    | (Rejected, st') => handler st'
    end.

Declare Scope async_scope.
Delimit Scope async_scope with async.
Bind Scope async_scope with Async.
Notation "'await' x <- m ;; k" := (bind m (fun x => k))
  (at level 20, x name, m at level 99, k at level 200) : async_scope.

(** ** The mongoose model [Image] and the [fs] calls *)

Module Image.

Definition doc_of (key : string) (e : string * string) : Doc.t :=
  {| Doc.key := key; Doc.url := e.1; Doc.filename := e.2 |}.

(** [Image.find().lean()] *)
Definition find (F : Faults) : Async (list Doc.t) :=
  fun st =>
    if find_rejects F then (Rejected, st)
    else (Resolved (map (fun ke => doc_of ke.1 ke.2) (map_to_list (pics st))), st).

(** [Image.findOne({ key })] *)
Definition findOne (F : Faults) (key : string) : Async (option Doc.t) :=
  fun st =>
    if findOne_rejects F then (Rejected, st)
    else (Resolved (doc_of key <$> pics st !! key), st).

(** [Image.findOneAndUpdate({ key }, { key, url, filename },
    { upsert: true, new: true })] *)
Definition findOneAndUpdate (F : Faults) (key url filename : string)
  : Async Doc.t :=
  fun st =>
    if findOneAndUpdate_rejects F then (Rejected, st)
    else (Resolved (doc_of key (url, filename)),
          {| pics := <[key := (url, filename)]> (pics st);
             uploads := uploads st |}).

(** [Image.findOneAndDelete({ key })] *)
Definition findOneAndDelete (F : Faults) (key : string) : Async (option Doc.t) :=
  fun st =>
    if findOneAndDelete_rejects F then (Rejected, st)
    else (Resolved (doc_of key <$> pics st !! key),
          {| pics := delete key (pics st); uploads := uploads st |}).

End Image.

Module fs.

(** [fs.existsSync(path)] *)
Definition existsSync (path : string) : Async bool :=
  fun st => (Resolved (bool_decide (is_Some (uploads st !! path))), st).

(** [fs.unlink(path, () => {})]: the callback drops the error, so a
    failed unlink leaves the file and is not seen by the caller.  The call
    only starts the removal; the model lets it take effect where it is
    issued. *)
Definition unlink (F : Faults) (path : string) : Async unit :=
  fun st =>
    if unlink_errors F then (Resolved tt, st)
    else (Resolved tt,
          {| pics := pics st; uploads := delete path (uploads st) |}).

(** The write multer's disk storage performs for an accepted file. *)
Definition write (path data : string) : Async unit :=
  fun st =>
    (Resolved tt, {| pics := pics st; uploads := <[path := data]> (uploads st) |}).

End fs.

(** ** Responses *)

Inductive Json :=
| JError (error : string)              (* { error } *)
| JImage (key url : string)            (* { key, url } *)
| JUploaded (key url : string)         (* { success: true, key, url } *)
| JDeleted (key : string)              (* { success: true, key } *)
| JMap (m : gmap string string).       (* { key1: url1, ... } *)

Record Response := { status : N; body : Json }.

(** [res.json(body)] *)
Definition res_json (b : Json) : Async Response :=
  ret {| status := 200; body := b |}.

(** [res.status(code).json(body)] *)
Definition res_status_json (code : N) (b : Json) : Async Response :=
  ret {| status := code; body := b |}.

(** ** [authMiddleware] *)

(** [s.split(sep)] for a one-character separator. *)
Fixpoint split_on (sep : ascii) (s : string) : list string :=
  match s with
  | EmptyString => [EmptyString]
  | String c rest =>
      if Ascii.eqb c sep then EmptyString :: split_on sep rest
      else match split_on sep rest with
           | piece :: pieces => String c piece :: pieces
           | [] => [String c EmptyString]
           end
  end.

Inductive Gate :=
| Next
| Stop (r : Response).

(** [authorization] is [req.headers["authorization"]]. *)
Definition authMiddleware (E : Env) (authorization : option string) : Gate :=
  if negb (Js.truthy_opt authorization)
  then Stop {| status := 401; body := JError "No token provided" |}
  else
    let authHeader := Js.or_default authorization "" in
    let token := nth_error (split_on " " authHeader) 1 in
    if negb (Js.truthy_opt token)
    then Stop {| status := 401; body := JError "Invalid token" |}
    else if jwt_verify E (Js.or_default token "")
         then Next
         else Stop {| status := 403; body := JError "Token invalid or expired" |}.

(** ** Requests *)

(** A request to [POST /api/upload], by what the server reads from it.
    Multer fills [req.body] part by part, so [req.body.key] is read twice:
    by the storage engine when it names the file, and by the route handler
    once the whole body is parsed. *)
Record UploadRequest := {
  authorization : option string;     (* req.headers["authorization"] *)
  key_at_filename : option string;   (* req.body.key when the file is named *)
  image : option (string * string);  (* the part "image": originalname, bytes *)
  body_key : option string;          (* req.body.key in the route handler *)
  now : N                            (* Date.now() when the file is named *)
}.

(** ** The routes *)

Section Routes.

Variable E : Env.
Variable F : Faults.

Local Open Scope async_scope.

(** The removal of a stored file, written out in both routes that
    drop one:
    [const oldPath = path.join(UPLOAD_DIR, name);
     if (fs.existsSync(oldPath)) fs.unlink(oldPath, () => {});] *)
Definition unlink_if_exists (name : string) : Async unit :=
  let oldPath := path_join E (UPLOAD_DIR E) name in
  await there <- fs.existsSync oldPath ;;
  if there then fs.unlink F oldPath else ret tt.

(** [GET /api/images] *)
Definition get_api_images : Async Response :=
  await docs <- Image.find F ;;
  let map := foldl (fun m d => Js.set_property m (Doc.key d) (Doc.url d)) ∅ docs in
  res_json (JMap map).

(** [GET /api/images/:key] *)
Definition get_api_images_key (key : string) : Async Response :=
  await doc <- Image.findOne F key ;;
  match doc with
  | None => res_status_json 404 (JError "Not found")
  | Some d => res_json (JImage (Doc.key d) (Doc.url d))
  end.

(** [upload.single("image")] with the disk storage of the server: the
    file is named by [storage.filename] and written under [UPLOAD_DIR];
    [req.file] is left for the handler.  This is multer storing the file;
    a write that fails ends the request in the error handler of Express
    before the route handler runs, and is not part of the model. *)
Definition upload_single (req : UploadRequest) : Async (option File.t) :=
  match image req with
  | None => ret None
  | Some (originalname, data) =>
      let name := storage.filename (key_at_filename req) originalname (now req) in
      await _ <- fs.write (path_join E (UPLOAD_DIR E) name) data ;;
      ret (Some {| File.originalname := originalname; File.filename := name |})
  end.

(** The handler of [POST /api/upload]; [key] is [req.body.key], [file]
    is [req.file]. *)
Definition upload_handler (key : option string) (file : option File.t)
  : Async Response :=
  try_catch
    (match key with
     | None => res_status_json 400 (JError "Missing 'key' field")
     | Some key =>
       if negb (Js.truthy key)
       then res_status_json 400 (JError "Missing 'key' field")
       else
         match file with
         | None => res_status_json 400 (JError "No file uploaded")
         | Some file =>
           let fileUrl :=
             BASE_URL E ++ "/uploads/" ++ encodeURIComponent (File.filename file) in
           await existing <- Image.findOne F key ;;
           await _ <-
             match existing with
             | Some existing =>
               if Js.truthy (Doc.filename existing)
                  && negb (String.eqb (Doc.filename existing) (File.filename file))
               then unlink_if_exists (Doc.filename existing)
               else ret tt
             | None => ret tt
             end ;;
           await doc <- Image.findOneAndUpdate F key fileUrl (File.filename file) ;;
           res_json (JUploaded (Doc.key doc) (Doc.url doc))
         end
     end)
    (res_status_json 500 (JError "Upload failed")).

(** Multer, then the handler: the whole route in the copy of the server
    without authentication, and what [server.js] runs once
    [authMiddleware] has called [next()]. *)
Definition upload_route (req : UploadRequest) : Async Response :=
  await file <- upload_single req ;;
  upload_handler (body_key req) file.

(** [POST /api/upload] of [server.js]. *)
Definition post_api_upload (req : UploadRequest) : Async Response :=
  match authMiddleware E (authorization req) with
  | Stop r => ret r
  | Next => upload_route req
  end.

(** [DELETE /api/images/:key] *)
Definition delete_api_images_key (key : string) : Async Response :=
  await doc <- Image.findOneAndDelete F key ;;
  await _ <-
    match doc with
    | Some d =>
      if Js.truthy (Doc.filename d)
      then unlink_if_exists (Doc.filename d)
      else ret tt
    | None => ret tt
    end ;;
  res_json (JDeleted key).

End Routes.

(** ** Names for the answers and for the stores a request passes through *)

Section Stages.

Variable E : Env.
Variable F : Faults.

Definition upload_path (name : string) : string :=
  path_join E (UPLOAD_DIR E) name.

Definition file_url (name : string) : string :=
  BASE_URL E ++ "/uploads/" ++ encodeURIComponent name.

Definition bad_request (msg : string) : Response :=
  {| status := 400; body := JError msg |}.

Definition upload_failed : Response :=
  {| status := 500; body := JError "Upload failed" |}.

Definition uploaded (key url : string) : Response :=
  {| status := 200; body := JUploaded key url |}.

Definition deleted (key : string) : Response :=
  {| status := 200; body := JDeleted key |}.

Definition found (key url : string) : Response :=
  {| status := 200; body := JImage key url |}.

Definition not_found : Response :=
  {| status := 404; body := JError "Not found" |}.

(** The store the upload handler reaches before it upserts: the file of
    the record it found is dropped when its name is non-empty and
    differs from the new one. *)
Definition after_cleanup (key new_name : string) (st : Store) : Store :=
  match pics st !! key with
  | Some (_, old) =>
      if Js.truthy old && negb (String.eqb old new_name)
      then snd (unlink_if_exists E F old st)
      else st
  | None => st
  end.

(** What multer leaves behind: the store with the file written, and
    [req.file]. *)
Definition stored_file (req : UploadRequest) : option File.t :=
  match image req with
  | None => None
  | Some (originalname, _) =>
      Some {| File.originalname := originalname;
              File.filename :=
                storage.filename (key_at_filename req) originalname (now req) |}
  end.

Definition after_multer (req : UploadRequest) (st : Store) : Store :=
  match image req with
  | None => st
  | Some (originalname, data) =>
      {| pics := pics st;
         uploads :=
           <[upload_path (storage.filename (key_at_filename req) originalname (now req))
             := data]> (uploads st) |}
  end.

End Stages.

(** ** A concrete environment, for running the model *)

Definition demo_env : Env :=
  {| BASE_URL := "http://localhost:4000";
     UPLOAD_DIR := "/srv/uploads";
     path_join := fun dir name => dir ++ "/" ++ name;
     jwt_verify := fun token => String.eqb token "good" |}.

Definition empty_store : Store := {| pics := ∅; uploads := ∅ |}.

Definition logo_request : UploadRequest :=
  {| authorization := Some "Bearer good";
     key_at_filename := Some "logo";
     image := Some ("logo.png", "AAAA");
     body_key := Some "logo";
     now := 1690000000000 |}.

Definition logo_store : Store :=
  snd (upload_route demo_env no_faults logo_request empty_store).

(** A second upload for the key [logo], whose [key] field follows the
    file part. *)
Definition replace_request : UploadRequest :=
  {| authorization := Some "Bearer good";
     key_at_filename := None;
     image := Some ("new logo.png", "BBBB");
     body_key := Some "logo";
     now := 1690000000005 |}.

Definition upsert_rejects : Faults :=
  {| find_rejects := false; findOne_rejects := false;
     findOneAndUpdate_rejects := true; findOneAndDelete_rejects := false;
     unlink_errors := false |}.

Definition with_unlink_errors (b : bool) (F : Faults) : Faults :=
  {| find_rejects := find_rejects F; findOne_rejects := findOne_rejects F;
     findOneAndUpdate_rejects := findOneAndUpdate_rejects F;
     findOneAndDelete_rejects := findOneAndDelete_rejects F;
     unlink_errors := b |}.


Definition forbidden : Response :=
  {| status := 403; body := JError "Token invalid or expired" |}.

Definition unauthorized (msg : string) : Response :=
  {| status := 401; body := JError msg |}.

(** ** Properties of a store *)

Section Integrity.

Variable E : Env.

(** Every document names a file that is in the upload directory. *)
Definition files_exist (st : Store) : Prop :=
  forall key url name,
    pics st !! key = Some (url, name) ->
    is_Some (uploads st !! upload_path E name).

(** No two documents name files at the same path. *)
Definition paths_unshared (st : Store) : Prop :=
  forall key1 key2 url1 url2 name1 name2,
    pics st !! key1 = Some (url1, name1) ->
    pics st !! key2 = Some (url2, name2) ->
    upload_path E name1 = upload_path E name2 ->
    key1 = key2.

End Integrity.

(** [s] has no occurrence of [c]. *)
Fixpoint free_of (c : ascii) (s : string) : bool :=
  match s with
  | EmptyString => true
  | String d rest => negb (Ascii.eqb d c) && free_of c rest
  end.

(** Every character of [s] satisfies [p]. *)
Fixpoint all_chars (p : ascii -> bool) (s : string) : bool :=
  match s with
  | EmptyString => true
  | String d rest => p d && all_chars p rest
  end.

(** ** The admin routes *)

(** [POST /api/login] and [POST /api/register] take [username] and
    [password] from the JSON body; each is modelled as absent or a
    string. *)
Module Credentials.
Record t := { username : option string; password : option string }.
End Credentials.

Module User.
(** A document of the collection of users; [password] is the hash. *)
Record t := { username : string; password : string }.
End User.

(** What the admin routes take from outside: the two environment
    variables, [jwt.sign] with the configured secret and expiry ([None]
    when it throws), and the hash [bcrypt.hash(password, 10)] gives. *)
Record AdminEnv := {
  ADMIN_USER : option string;
  ADMIN_PASS : option string;
  jwt_sign : option string -> option string;
  bcrypt_hash : string -> string
}.

(** The message of the error a query on users rejects with, if it does. *)
Record UserFaults := {
  user_findOne_rejects : option string;
  user_save_rejects : option string
}.

Inductive AdminReply :=
| Token (token : string)              (* 200 { success: true, token } *)
| Created                             (* 200 { success: true, message } *)
| Refused (code : N) (error : string). (* code { success: false, error } *)

(** [a === b] on values that are [undefined] or strings. *)
Definition strict_eq (a b : option string) : bool :=
  match a, b with
  | None, None => true
  | Some x, Some y => String.eqb x y
  | _, _ => false
  end.

(** [POST /api/login]; [Rejected] stands for the handler throwing, which
    it does when [jwt.sign] throws. *)
Definition post_api_login (A : AdminEnv) (c : Credentials.t) : outcome AdminReply :=
  if strict_eq (Credentials.username c) (ADMIN_USER A)
     && strict_eq (Credentials.password c) (ADMIN_PASS A)
  then match jwt_sign A (ADMIN_USER A) with
       | Some token => Resolved (Token token)
       | None => Rejected
       end
  else Resolved (Refused 401 "Invalid credentials").

(** [POST /api/register] over the collection of users. *)
Definition post_api_register (A : AdminEnv) (U : UserFaults) (c : Credentials.t)
           (users : list User.t) : AdminReply * list User.t :=
  match user_findOne_rejects U with
  | Some message => (Refused 500 message, users)
  | None =>
    match users with
    | existingAdmin :: _ =>
        (Refused 403 "Admin already exists. Registration is disabled.", users)
    | [] =>
      if negb (Js.truthy_opt (Credentials.username c))
         || negb (Js.truthy_opt (Credentials.password c))
      then (Refused 400 "Username and password required", users)
      else
        let hashed := bcrypt_hash A (Js.or_default (Credentials.password c) "") in
        match user_save_rejects U with
        | Some message => (Refused 500 message, users)
        | None =>
            (Created,
             (users ++ [{| User.username := Js.or_default (Credentials.username c) "";
                           User.password := hashed |}])%list)
        end
    end
  end.

(** A run of registrations, one after the other. *)
Fixpoint register_all (A : AdminEnv) (requests : list (UserFaults * Credentials.t))
         (users : list User.t) : list User.t :=
  match requests with
  | [] => users
  | (U, c) :: rest => register_all A rest (snd (post_api_register A U c users))
  end.

Definition demo_admin : AdminEnv :=
  {| ADMIN_USER := Some "admin";
     ADMIN_PASS := Some "secret";
     jwt_sign := fun user => Some ("good");
     bcrypt_hash := fun password => "$2a$10$" ++ password |}.

Definition unset_admin : AdminEnv :=
  {| ADMIN_USER := None;
     ADMIN_PASS := None;
     jwt_sign := fun user => Some ("good");
     bcrypt_hash := fun password => "$2a$10$" ++ password |}.

Definition no_user_faults : UserFaults :=
  {| user_findOne_rejects := None; user_save_rejects := None |}.

(** ** More requests, stores and answers to run the model on *)

Definition anonymous_request : UploadRequest :=
  {| authorization := None;
     key_at_filename := Some "logo";
     image := Some ("logo.png", "AAAA");
     body_key := Some "logo";
     now := 1690000000000 |}.

Definition add_doc (m : gmap string string) (d : Doc.t) : gmap string string :=
  Js.set_property m (Doc.key d) (Doc.url d).

(** What [GET /api/images] lists of a store: the url of every document
    but one whose key is [__proto__]. *)
Definition listing (st : Store) : gmap string string :=
  delete "__proto__" (fst <$> pics st).

Definition listed (m : gmap string string) : Response :=
  {| status := 200; body := JMap m |}.

Definition hero_request : UploadRequest :=
  {| authorization := Some "Bearer good";
     key_at_filename := Some "hero";
     image := Some ("hero banner.jpg", "HHHH");
     body_key := Some "hero";
     now := 1690000000009 |}.

Definition two_store : Store :=
  snd (upload_route demo_env no_faults hero_request logo_store).

Definition logo_again : UploadRequest :=
  {| authorization := Some "Bearer good";
     key_at_filename := Some "logo";
     image := Some ("logo.png", "ZZZZ");
     body_key := Some "logo";
     now := 1690000000000 |}.

Definition findOne_fails : Faults :=
  {| find_rejects := false; findOne_rejects := true;
     findOneAndUpdate_rejects := false; findOneAndDelete_rejects := false;
     unlink_errors := false |}.

Definition shared_store : Store :=
  {| pics := <["a" := ("http://localhost:4000/uploads/1_a_b_c.png", "1_a_b_c.png")]>
               (<["a_b" := ("http://localhost:4000/uploads/1_a_b_c.png", "1_a_b_c.png")]>
                  ∅);
     uploads := {["/srv/uploads/1_a_b_c.png" := "DDDD"]} |}.

Definition admin_body : Credentials.t :=
  {| Credentials.username := Some "root"; Credentials.password := Some "pw" |}.

Definition delete_rejects : Faults :=
  {| find_rejects := false; findOne_rejects := false;
     findOneAndUpdate_rejects := false; findOneAndDelete_rejects := true;
     unlink_errors := false |}.

Definition proto_request : UploadRequest :=
  {| authorization := Some "Bearer good";
     key_at_filename := Some "__proto__";
     image := Some ("p.png", "PPPP");
     body_key := Some "__proto__";
     now := 1690000000011 |}.

(** The store with the documents of [logo] and of [__proto__]. *)
Definition proto_store : Store :=
  snd (upload_route demo_env no_faults proto_request logo_store).

(** * Properties *)

(** ** The model on concrete inputs *)

Example filename_logo :
  storage.filename (Some "logo") "my logo (1).png" 1690000000000
  = "1690000000000_logo_my_logo__1_.png".
Proof. reflexivity. Qed.

Example filename_nokey :
  storage.filename None "a b.png" 7 = "7_image_a_b.png".
Proof. reflexivity. Qed.

Example encode_space : encodeURIComponent "7_a b_x.png" = "7_a%20b_x.png".
Proof. reflexivity. Qed.

Example encode_slash : encodeURIComponent "a/b?c" = "a%2Fb%3Fc".
Proof. reflexivity. Qed.

Example split_bearer : split_on " " "Bearer abc.def" = ["Bearer"; "abc.def"].
Proof. reflexivity. Qed.

(** ** Strings and file names *)

Lemma truthy_nonempty (s : string) : Js.truthy s = true <-> s <> "".
Proof. destruct s; simpl; split; congruence. Qed.

Lemma or_default_truthy (s d : string) :
  Js.truthy s = true -> Js.or_default (Some s) d = s.
Proof. intros H. unfold Js.or_default. now rewrite H. Qed.

Lemma or_default_falsy (v : option string) (d : string) :
  Js.truthy_opt v = false -> Js.or_default v d = d.
Proof.
  destruct v as [s|]; simpl; [|reflexivity].
  intros H. now rewrite H.
Qed.

Lemma safe_cons (c : ascii) (s : string) :
  safe (String c s) = String (if safe_char c then c else "_"%char) (safe s).
Proof. unfold safe. simpl. now destruct (safe_char c). Qed.

Lemma safe_length (s : string) : String.length (safe s) = String.length s.
Proof.
  induction s as [|c s IH]; [reflexivity|].
  rewrite safe_cons. simpl. now rewrite IH.
Qed.

Lemma safe_get (s : string) (i : nat) (c : ascii) :
  String.get i s = Some c ->
  String.get i (safe s) = Some (if safe_char c then c else "_"%char).
Proof.
  revert i. induction s as [|d s IH]; intros i; [discriminate|].
  rewrite safe_cons. destruct i as [|i]; simpl.
  - intros [= ->]. reflexivity.
  - apply IH.
Qed.

(** Every character of a sanitized name is in the class. *)
Lemma safe_is_safe (s : string) (i : nat) (c : ascii) :
  String.get i (safe s) = Some c -> safe_char c = true.
Proof.
  revert i. induction s as [|d s IH]; intros i; [discriminate|].
  rewrite safe_cons. destruct i as [|i]; simpl.
  - intros [= <-]. destruct (safe_char d) eqn:Hd; [exact Hd | reflexivity].
  - apply IH.
Qed.

Lemma append_assoc_str (a b c : string) : (a ++ b) ++ c = a ++ (b ++ c).
Proof.
  induction a as [|x a IH]; [reflexivity|].
  change (String x ((a ++ b) ++ c) = String x (a ++ b ++ c)). now rewrite IH.
Qed.

Lemma filename_truthy (key originalname : string) (now : N) :
  Js.truthy key = true ->
  storage.filename (Some key) originalname now
  = Js.of_number now ++ "_" ++ key ++ "_" ++ safe originalname.
Proof. intros H. unfold storage.filename. now rewrite or_default_truthy. Qed.

Lemma filename_falsy (v : option string) (originalname : string) (now : N) :
  Js.truthy_opt v = false ->
  storage.filename v originalname now
  = Js.of_number now ++ "_image_" ++ safe originalname.
Proof. intros H. unfold storage.filename. now rewrite or_default_falsy. Qed.

(** ** Running the routes *)

Section Running.

Variable E : Env.
Variable F : Faults.

Lemma unlink_if_exists_run (name : string) (st : Store) :
  unlink_if_exists E F name st
  = (Resolved tt,
     {| pics := pics st;
        uploads := if unlink_errors F then uploads st
                   else delete (upload_path E name) (uploads st) |}).
Proof.
  unfold unlink_if_exists, bind, fs.existsSync, fs.unlink, ret, upload_path.
  destruct st as [p u]; simpl.
  case_bool_decide as Hin.
  - destruct (unlink_errors F); reflexivity.
  - assert (u !! path_join E (UPLOAD_DIR E) name = None) as Hnone.
    { destruct (u !! path_join E (UPLOAD_DIR E) name) eqn:Hl; [|reflexivity].
      exfalso. apply Hin. eauto. }
    rewrite (delete_id _ _ Hnone). destruct (unlink_errors F); reflexivity.
Qed.

Lemma unlink_if_exists_absent (name : string) (st : Store) :
  uploads st !! upload_path E name = None ->
  unlink_if_exists E F name st = (Resolved tt, st).
Proof.
  intros Hnone. rewrite unlink_if_exists_run.
  rewrite (delete_id _ _ Hnone). destruct st, (unlink_errors F); reflexivity.
Qed.

Lemma after_cleanup_pics (key new_name : string) (st : Store) :
  pics (after_cleanup E F key new_name st) = pics st.
Proof.
  unfold after_cleanup. destruct (pics st !! key) as [[u old]|]; [|reflexivity].
  destruct (Js.truthy old && negb (old =? new_name)%string); [|reflexivity].
  now rewrite unlink_if_exists_run.
Qed.

Lemma upload_handler_run (key : string) (file : File.t) (st : Store) :
  Js.truthy key = true ->
  upload_handler E F (Some key) (Some file) st
  = if findOne_rejects F then (Resolved upload_failed, st)
    else
      let st1 := after_cleanup E F key (File.filename file) st in
      if findOneAndUpdate_rejects F then (Resolved upload_failed, st1)
      else (Resolved (uploaded key (file_url E (File.filename file))),
            {| pics := <[key := (file_url E (File.filename file), File.filename file)]>
                         (pics st1);
               uploads := uploads st1 |}).
Proof.
  intros Hkey.
  unfold upload_handler, try_catch, bind, Image.findOne, Image.findOneAndUpdate,
    res_json, res_status_json, ret, after_cleanup.
  rewrite Hkey; simpl.
  destruct (findOne_rejects F); [reflexivity|].
  destruct (pics st !! key) as [[u old]|]; simpl.
  - destruct (Js.truthy old && negb (old =? File.filename file)%string).
    + rewrite unlink_if_exists_run; simpl.
      destruct (findOneAndUpdate_rejects F); reflexivity.
    + destruct (findOneAndUpdate_rejects F); reflexivity.
  - destruct (findOneAndUpdate_rejects F); reflexivity.
Qed.

Lemma upload_handler_missing_key (key : option string) (file : option File.t)
      (st : Store) :
  Js.truthy_opt key = false ->
  upload_handler E F key file st
  = (Resolved (bad_request "Missing 'key' field"), st).
Proof.
  intros Hkey. unfold upload_handler, try_catch, res_status_json, ret.
  destruct key as [k|]; simpl in *; [rewrite Hkey|]; reflexivity.
Qed.

Lemma upload_handler_no_file (key : string) (st : Store) :
  Js.truthy key = true ->
  upload_handler E F (Some key) None st
  = (Resolved (bad_request "No file uploaded"), st).
Proof.
  intros Hkey. unfold upload_handler, try_catch, res_status_json, ret.
  rewrite Hkey. reflexivity.
Qed.

Lemma upload_single_run (req : UploadRequest) (st : Store) :
  upload_single E req st = (Resolved (stored_file req), after_multer E req st).
Proof.
  unfold upload_single, stored_file, after_multer, bind, fs.write, ret, upload_path.
  destruct (image req) as [[o d]|]; reflexivity.
Qed.

(** The handler starts from the store multer has already written to. *)
Lemma upload_route_run (req : UploadRequest) (st : Store) :
  upload_route E F req st
  = upload_handler E F (body_key req) (stored_file req) (after_multer E req st).
Proof. unfold upload_route, bind. now rewrite upload_single_run. Qed.

Lemma post_api_upload_next (req : UploadRequest) :
  authMiddleware E (authorization req) = Next ->
  post_api_upload E F req = upload_route E F req.
Proof. intros H. unfold post_api_upload. now rewrite H. Qed.

Lemma post_api_upload_stop (req : UploadRequest) (r : Response) (st : Store) :
  authMiddleware E (authorization req) = Stop r ->
  post_api_upload E F req st = (Resolved r, st).
Proof. intros H. unfold post_api_upload. now rewrite H. Qed.

Lemma get_api_images_key_run (key : string) (st : Store) :
  get_api_images_key F key st
  = if findOne_rejects F then (Rejected, st)
    else match pics st !! key with
         | Some (url, _) => (Resolved (found key url), st)
         | None => (Resolved not_found, st)
         end.
Proof.
  unfold get_api_images_key, bind, Image.findOne, res_json, res_status_json, ret.
  destruct (findOne_rejects F); [reflexivity|].
  destruct (pics st !! key) as [[u f]|]; reflexivity.
Qed.

Lemma delete_api_images_key_run (key : string) (st : Store) :
  delete_api_images_key E F key st
  = if findOneAndDelete_rejects F then (Rejected, st)
    else
      let st1 := {| pics := delete key (pics st); uploads := uploads st |} in
      (Resolved (deleted key),
       match pics st !! key with
       | Some (_, name) =>
           if Js.truthy name then snd (unlink_if_exists E F name st1) else st1
       | None => st1
       end).
Proof.
  unfold delete_api_images_key, bind, Image.findOneAndDelete, res_json, ret.
  destruct (findOneAndDelete_rejects F); [reflexivity|].
  destruct (pics st !! key) as [[u name]|]; simpl; [|reflexivity].
  destruct (Js.truthy name); [|reflexivity].
  now rewrite unlink_if_exists_run.
Qed.

End Running.

(** The three ways through the upload route: no usable key, a key but no
    file, a key and a file.  [Hk] names the fact about the key. *)
Ltac upload_cases req Hk :=
  rewrite ?upload_route_run;
  destruct (Js.truthy_opt (body_key req)) eqn:Hk;
  [ destruct (body_key req) as [?k|]; [|discriminate Hk]; simpl in Hk;
    destruct (stored_file req) as [?file|];
    [ rewrite ?upload_handler_run by exact Hk
    | rewrite ?upload_handler_no_file by exact Hk ]
  | rewrite ?upload_handler_missing_key by exact Hk ].

(** ** The claims *)

(** C1, as the specification has it, at a concrete request: the upsert is
    rejected and [POST /api/upload] answers 500, the record of [logo]
    still names the first file, and that file, present before the
    request, has been removed by it. *)
Lemma upload_rejected_upsert_loses_old_file :
  let old := upload_path demo_env "1690000000000_logo_logo.png" in
  let r := upload_route demo_env upsert_rejects replace_request logo_store in
  fst r = Resolved upload_failed
  /\ pics (snd r) !! "logo"
     = Some (file_url demo_env "1690000000000_logo_logo.png",
             "1690000000000_logo_logo.png")
  /\ uploads logo_store !! old = Some "AAAA"
  /\ uploads (snd r) !! old = None.
Proof. vm_compute. repeat split. Qed.

(** C1, amended: the handler drops the file of the record it found before
    it attempts the upsert.  Whenever the lookup resolves and the unlink
    does not fail, the file named by the former record is absent after
    the request whatever the upsert does; if the upsert is rejected the
    answer is 500 and the record is unchanged, so it names the file that
    was just removed. *)
Theorem upload_drops_old_file_before_upsert
        (E : Env) (F : Faults) (req : UploadRequest) (st : Store)
        (key originalname data url old : string) :
  body_key req = Some key ->
  Js.truthy key = true ->
  image req = Some (originalname, data) ->
  pics st !! key = Some (url, old) ->
  Js.truthy old = true ->
  old <> storage.filename (key_at_filename req) originalname (now req) ->
  findOne_rejects F = false ->
  unlink_errors F = false ->
  let r := upload_route E F req st in
  uploads (snd r) !! upload_path E old = None
  /\ (findOneAndUpdate_rejects F = true ->
      fst r = Resolved upload_failed /\ pics (snd r) !! key = Some (url, old)).
Proof.
  intros Hbody Hkey Himg Hpic Hold Hne Hfind Hunlink r. subst r.
  rewrite upload_route_run, Hbody.
  unfold stored_file, after_multer. rewrite Himg.
  rewrite upload_handler_run by exact Hkey.
  rewrite Hfind. cbn [File.filename].
  unfold after_cleanup. cbn [pics]. rewrite Hpic, Hold.
  apply String.eqb_neq in Hne. rewrite Hne. cbn [negb andb].
  rewrite unlink_if_exists_run, Hunlink. cbn [snd pics uploads].
  destruct (findOneAndUpdate_rejects F); cbn [fst snd pics uploads].
  - split; [apply lookup_delete_eq|]. intros _. split; [reflexivity|exact Hpic].
  - split; [apply lookup_delete_eq|]. discriminate.
Qed.

Lemma upload_drops_old_file_before_upsert_witness :
  let r := upload_route demo_env upsert_rejects replace_request logo_store in
  uploads (snd r) !! upload_path demo_env "1690000000000_logo_logo.png" = None
  /\ (findOneAndUpdate_rejects upsert_rejects = true ->
      fst r = Resolved upload_failed
      /\ pics (snd r) !! "logo"
         = Some (file_url demo_env "1690000000000_logo_logo.png",
                 "1690000000000_logo_logo.png")).
Proof.
  apply (upload_drops_old_file_before_upsert demo_env upsert_rejects replace_request
           logo_store "logo" "new logo.png" "BBBB"
           (file_url demo_env "1690000000000_logo_logo.png")
           "1690000000000_logo_logo.png").
  - reflexivity.
  - reflexivity.
  - reflexivity.
  - vm_compute. reflexivity.
  - reflexivity.
  - vm_compute. discriminate.
  - reflexivity.
  - reflexivity.
Defined.

(** Which uploads succeed: every request with a non-empty key and a file,
    as long as the two queries resolve. *)
Lemma upload_route_success
      (E : Env) (F : Faults) (req : UploadRequest) (st : Store)
      (key originalname data : string) :
  body_key req = Some key ->
  Js.truthy key = true ->
  image req = Some (originalname, data) ->
  findOne_rejects F = false ->
  findOneAndUpdate_rejects F = false ->
  let name := storage.filename (key_at_filename req) originalname (now req) in
  fst (upload_route E F req st) = Resolved (uploaded key (file_url E name))
  /\ pics (snd (upload_route E F req st)) !! key = Some (file_url E name, name).
Proof.
  intros Hbody Hkey Himg Hfind Hupd name.
  rewrite upload_route_run, Hbody. unfold stored_file. rewrite Himg.
  rewrite upload_handler_run by exact Hkey.
  rewrite Hfind, Hupd. cbn [fst snd pics File.filename].
  split; [reflexivity | apply lookup_insert_eq].
Qed.

(** A 200 answer of the upload route carries the key of the request, and
    the record of that key then holds the url of the answer. *)
Lemma upload_route_answer
      (E : Env) (F : Faults) (req : UploadRequest) (st : Store)
      (key url : string) :
  fst (upload_route E F req st) = Resolved (uploaded key url) ->
  exists name, pics (snd (upload_route E F req st)) !! key = Some (url, name).
Proof.
  upload_cases req Hk; [|discriminate|discriminate].
  destruct (findOne_rejects F); [discriminate|].
  cbn zeta. destruct (findOneAndUpdate_rejects F); [discriminate|].
  cbn [fst snd pics]. intros [= <- <-].
  eexists. apply lookup_insert_eq.
Qed.

(** C2: when an upload answers with success, [key] and [url], a lookup of
    [key] on the store it leaves answers 200 with that same [key] and
    [url]. *)
Theorem upload_then_lookup
        (E : Env) (F F' : Faults) (req : UploadRequest) (st : Store)
        (key url : string) :
  fst (upload_route E F req st) = Resolved (uploaded key url) ->
  findOne_rejects F' = false ->
  fst (get_api_images_key F' key (snd (upload_route E F req st)))
  = Resolved (found key url).
Proof.
  intros Hup Hfind.
  destruct (upload_route_answer E F req st key url Hup) as [name Hpic].
  rewrite get_api_images_key_run, Hfind, Hpic. reflexivity.
Qed.

Lemma upload_then_lookup_witness :
  fst (get_api_images_key no_faults "logo"
         (snd (upload_route demo_env no_faults logo_request empty_store)))
  = Resolved (found "logo" "http://localhost:4000/uploads/1690000000000_logo_logo.png").
Proof.
  apply (upload_then_lookup demo_env no_faults no_faults logo_request empty_store
           "logo" "http://localhost:4000/uploads/1690000000000_logo_logo.png").
  - vm_compute. reflexivity.
  - reflexivity.
Defined.

(** C3: a lookup of [key] right after a delete of [key] answers 404
    [Not found], whether or not a record of [key] existed. *)
Theorem delete_then_lookup
        (E : Env) (F F' : Faults) (key : string) (st : Store) :
  findOneAndDelete_rejects F = false ->
  findOne_rejects F' = false ->
  fst (get_api_images_key F' key (snd (delete_api_images_key E F key st)))
  = Resolved not_found.
Proof.
  intros Hdel Hfind.
  rewrite get_api_images_key_run, Hfind.
  rewrite delete_api_images_key_run, Hdel. cbn [snd].
  assert (pics (match pics st !! key with
                | Some (_, name) =>
                    if Js.truthy name
                    then snd (unlink_if_exists E F name
                                {| pics := delete key (pics st); uploads := uploads st |})
                    else {| pics := delete key (pics st); uploads := uploads st |}
                | None => {| pics := delete key (pics st); uploads := uploads st |}
                end) = delete key (pics st)) as ->.
  { destruct (pics st !! key) as [[u name]|]; [|reflexivity].
    destruct (Js.truthy name); [|reflexivity].
    now rewrite unlink_if_exists_run. }
  now rewrite lookup_delete_eq.
Qed.

Lemma delete_then_lookup_witness :
  fst (get_api_images_key no_faults "logo"
         (snd (delete_api_images_key demo_env no_faults "logo" logo_store)))
  = Resolved not_found
  /\ fst (get_api_images_key no_faults "hero"
         (snd (delete_api_images_key demo_env no_faults "hero" logo_store)))
  = Resolved not_found.
Proof.
  split.
  - apply (delete_then_lookup demo_env no_faults no_faults "logo" logo_store);
      reflexivity.
  - apply (delete_then_lookup demo_env no_faults no_faults "hero" logo_store);
      reflexivity.
Defined.

(** C4: the delete route answers 200 with [success] and the key for every
    key, with or without a record of it; no answer of the route is a 404
    or any other error. *)
Theorem delete_answers_success
        (E : Env) (F : Faults) (key : string) (st : Store) :
  (findOneAndDelete_rejects F = false ->
   fst (delete_api_images_key E F key st) = Resolved (deleted key))
  /\ (forall r, fst (delete_api_images_key E F key st) = Resolved r ->
                r = deleted key).
Proof.
  rewrite delete_api_images_key_run.
  destruct (findOneAndDelete_rejects F); cbn [fst]; split.
  - discriminate.
  - discriminate.
  - reflexivity.
  - now intros r [= <-].
Qed.

Lemma delete_answers_success_witness :
  pics logo_store !! "hero" = None
  /\ fst (delete_api_images_key demo_env no_faults "hero" logo_store)
     = Resolved (deleted "hero").
Proof.
  split; [vm_compute; reflexivity|].
  apply (delete_answers_success demo_env no_faults "hero" logo_store).
  reflexivity.
Defined.

(** C5: removing a file that is not there changes nothing and is no
    error, and no removal ever rejects; whether [fs.unlink] fails or not,
    the upload route and the delete route give the same answer. *)
Theorem cleanup_is_best_effort
        (E : Env) (F : Faults) (b : bool) (name key : string)
        (req : UploadRequest) (st : Store) :
  (uploads st !! upload_path E name = None ->
   unlink_if_exists E F name st = (Resolved tt, st))
  /\ fst (unlink_if_exists E F name st) = Resolved tt
  /\ fst (upload_route E (with_unlink_errors b F) req st)
     = fst (upload_route E F req st)
  /\ fst (delete_api_images_key E (with_unlink_errors b F) key st)
     = fst (delete_api_images_key E F key st).
Proof.
  split; [now apply unlink_if_exists_absent|].
  split; [now rewrite unlink_if_exists_run|]. split.
  - upload_cases req Hk; [|reflexivity|reflexivity].
    cbn [with_unlink_errors findOne_rejects findOneAndUpdate_rejects].
    destruct (findOne_rejects F); [reflexivity|].
    cbn zeta. destruct (findOneAndUpdate_rejects F); reflexivity.
  - rewrite !delete_api_images_key_run.
    cbn [with_unlink_errors findOneAndDelete_rejects].
    destruct (findOneAndDelete_rejects F); reflexivity.
Qed.

Lemma cleanup_is_best_effort_witness :
  uploads logo_store !! upload_path demo_env "gone.png" = None
  /\ unlink_if_exists demo_env no_faults "gone.png" logo_store
     = (Resolved tt, logo_store)
  /\ fst (upload_route demo_env (with_unlink_errors true no_faults)
            replace_request logo_store)
     = fst (upload_route demo_env no_faults replace_request logo_store)
  /\ fst (delete_api_images_key demo_env (with_unlink_errors true no_faults)
            "logo" logo_store)
     = fst (delete_api_images_key demo_env no_faults "logo" logo_store).
Proof.
  assert (uploads logo_store !! upload_path demo_env "gone.png" = None) as Habsent
    by (vm_compute; reflexivity).
  destruct (cleanup_is_best_effort demo_env no_faults true "gone.png" "logo"
              replace_request logo_store) as (Hrm & _ & Hup & Hdel).
  split; [exact Habsent|].
  split; [exact (Hrm Habsent)|].
  split; [exact Hup | exact Hdel].
Defined.

(** C6, as the specification has it, at the empty key: the key part of
    the name is [image], not the empty key. *)
Lemma filename_empty_key_is_image :
  storage.filename (Some "") "a b.png" 5 = "5_image_a_b.png"
  /\ storage.filename (Some "") "a b.png" 5
     <> Js.of_number 5 ++ "_" ++ "" ++ "_" ++ safe "a b.png".
Proof. split; [reflexivity | vm_compute; discriminate]. Qed.

(** C6, amended: for every original name and every non-empty key, the
    file name is the timestamp, the key and the sanitized name joined by
    underscores; the sanitized name has the length of the original, keeps
    every character of the class [A-Za-z0-9._-] and has an underscore in
    the place of every other one.  (An empty key gives the key part
    [image].) *)
Theorem filename_format
        (key originalname : string) (now : N) :
  Js.truthy key = true ->
  storage.filename (Some key) originalname now
  = Js.of_number now ++ "_" ++ key ++ "_" ++ safe originalname
  /\ String.length (safe originalname) = String.length originalname
  /\ (forall i c, String.get i originalname = Some c ->
        String.get i (safe originalname)
        = Some (if safe_char c then c else "_"%char))
  /\ storage.filename (Some "") originalname now
     = Js.of_number now ++ "_image_" ++ safe originalname.
Proof.
  intros Hkey. split; [now apply filename_truthy|].
  split; [apply safe_length|].
  split; [apply safe_get|].
  now apply filename_falsy.
Qed.

Lemma filename_format_witness :
  storage.filename (Some "logo") "my logo (1).png" 1690000000000
  = Js.of_number 1690000000000 ++ "_" ++ "logo" ++ "_" ++ safe "my logo (1).png"
  /\ String.length (safe "my logo (1).png") = String.length "my logo (1).png"
  /\ (forall i c, String.get i "my logo (1).png" = Some c ->
        String.get i (safe "my logo (1).png")
        = Some (if safe_char c then c else "_"%char))
  /\ storage.filename (Some "") "my logo (1).png" 1690000000000
     = Js.of_number 1690000000000 ++ "_image_" ++ safe "my logo (1).png".
Proof.
  apply (filename_format "logo" "my logo (1).png" 1690000000000).
  reflexivity.
Defined.



(** C8: a delete of a key that has no record leaves the documents and
    the upload directory as they were, and answers success with the
    key. *)
Theorem delete_absent_key_is_identity
        (E : Env) (F : Faults) (key : string) (st : Store) :
  pics st !! key = None ->
  snd (delete_api_images_key E F key st) = st
  /\ (findOneAndDelete_rejects F = false ->
      delete_api_images_key E F key st = (Resolved (deleted key), st)).
Proof.
  intros Habsent.
  rewrite delete_api_images_key_run, Habsent. cbn zeta.
  rewrite (delete_id _ _ Habsent).
  destruct st as [p u], (findOneAndDelete_rejects F); cbn [snd]; split;
    solve [reflexivity | discriminate].
Qed.

Lemma delete_absent_key_is_identity_witness :
  pics logo_store !! "hero" = None
  /\ delete_api_images_key demo_env no_faults "hero" logo_store
     = (Resolved (deleted "hero"), logo_store).
Proof.
  assert (pics logo_store !! "hero" = None) as Habsent
    by (vm_compute; reflexivity).
  split; [exact Habsent|].
  apply (delete_absent_key_is_identity demo_env no_faults "hero" logo_store Habsent).
  reflexivity.
Defined.

(** C9, as the specification has it, at a key that is present and
    empty: the key part of the name is [image], so the key is not
    embedded as it is. *)
Lemma empty_key_is_not_embedded :
  storage.filename (Some "") "x y.png" 5 = "5_image_x_y.png"
  /\ storage.filename (Some "") "x y.png" 5
     <> (Js.of_number 5 ++ "_") ++ "" ++ "_" ++ safe "x y.png".
Proof. split; [reflexivity | vm_compute; discriminate]. Qed.

(** C9, amended: a non-empty key that is there when the file is named
    goes into the name as it is: the name is the timestamp and an
    underscore, then the key, then an underscore and the sanitized
    original name, and every character of the key, in the class or not,
    sits unchanged at its place after the timestamp prefix.  A key that
    is there but empty gives [image] in that place. *)
Theorem key_is_embedded_verbatim
        (key originalname : string) (now : N) :
  Js.truthy key = true ->
  let prefix := Js.of_number now ++ "_" in
  storage.filename (Some key) originalname now
  = prefix ++ key ++ "_" ++ safe originalname
  /\ (forall i, i < String.length key ->
       String.get (i + String.length prefix)
                  (storage.filename (Some key) originalname now)
       = String.get i key)
  /\ storage.filename (Some "") originalname now
     = prefix ++ "image" ++ "_" ++ safe originalname.
Proof.
  intros Hkey prefix.
  assert (storage.filename (Some key) originalname now
          = prefix ++ key ++ "_" ++ safe originalname) as Heq.
  { rewrite filename_truthy by exact Hkey. subst prefix.
    now rewrite append_assoc_str. }
  split; [exact Heq|]. split.
  - intros i Hi. rewrite Heq.
    rewrite <- append_correct2. symmetry. now apply append_correct1.
  - rewrite filename_falsy by reflexivity. subst prefix.
    now rewrite append_assoc_str.
Qed.

Lemma key_is_embedded_verbatim_witness :
  storage.filename (Some "a/b c") "x y.png" 5 = "5_a/b c_x_y.png"
  /\ (forall i, i < 5 ->
       String.get (i + 2) (storage.filename (Some "a/b c") "x y.png" 5)
       = String.get i "a/b c")
  /\ storage.filename (Some "") "x y.png" 5 = "5_image_x_y.png".
Proof.
  apply (key_is_embedded_verbatim "a/b c" "x y.png" 5). reflexivity.
Defined.




(** * Further properties of the server *)

(** ** [authMiddleware] *)

Lemma append_cons (c : ascii) (a b : string) :
  String c a ++ b = String c (a ++ b).
Proof. reflexivity. Qed.

Lemma split_on_cons_other (sep c : ascii) (s : string) :
  Ascii.eqb c sep = false ->
  exists piece pieces,
    split_on sep s = piece :: pieces
    /\ split_on sep (String c s) = String c piece :: pieces.
Proof.
  intros Hc. cbn [split_on]. rewrite Hc.
  assert (split_on sep s <> []) as Hne
    by (destruct s as [|d s]; cbn [split_on]; [discriminate|];
        destruct (Ascii.eqb d sep); [discriminate|];
        destruct (split_on sep s); discriminate).
  destruct (split_on sep s) as [|piece pieces]; [congruence|].
  exists piece, pieces. split; reflexivity.
Qed.

Lemma split_on_free (sep : ascii) (s : string) :
  free_of sep s = true -> split_on sep s = [s].
Proof.
  induction s as [|c s IH]; [reflexivity|].
  cbn [free_of]. intros [Hc Hs]%andb_true_iff. apply negb_true_iff in Hc.
  destruct (split_on_cons_other sep c s Hc) as (piece & pieces & Hs' & ->).
  rewrite (IH Hs) in Hs'. now injection Hs' as <- <-.
Qed.

Lemma split_on_app (sep : ascii) (a b : string) :
  free_of sep a = true ->
  split_on sep (a ++ String sep b) = a :: split_on sep b.
Proof.
  induction a as [|c a IH].
  - intros _. change (split_on sep (String sep b) = "" :: split_on sep b).
    cbn [split_on]. now rewrite Ascii.eqb_refl.
  - cbn [free_of]. intros [Hc Ha]%andb_true_iff. apply negb_true_iff in Hc.
    rewrite append_cons.
    destruct (split_on_cons_other sep c (a ++ String sep b) Hc)
      as (piece & pieces & Hs' & ->).
    rewrite (IH Ha) in Hs'. now injection Hs' as <- <-.
Qed.

Lemma truthy_app_cons (a b : string) (c : ascii) :
  Js.truthy (a ++ String c b) = true.
Proof. destruct a; reflexivity. Qed.

(** X1: the token [authMiddleware] hands to [jwt.verify] is the second
    space-separated word of the header, whatever the first word is and
    whatever follows the second: with a non-empty token free of spaces the
    request goes on exactly when [jwt.verify] accepts that token, and is
    answered 403 otherwise. *)
Theorem auth_verifies_second_word
        (E : Env) (scheme token rest : string) :
  free_of " " scheme = true ->
  free_of " " token = true ->
  Js.truthy token = true ->
  authMiddleware E (Some (scheme ++ " " ++ token))
  = (if jwt_verify E token then Next else Stop forbidden)
  /\ authMiddleware E (Some (scheme ++ " " ++ token ++ " " ++ rest))
     = (if jwt_verify E token then Next else Stop forbidden).
Proof.
  intros Hscheme Htoken Htruthy.
  assert (forall tail more, split_on " " tail = token :: more ->
            authMiddleware E (Some (scheme ++ String " " tail))
            = (if jwt_verify E token then Next else Stop forbidden)) as Hgen.
  { intros tail more Htail. unfold authMiddleware.
    cbn [Js.truthy_opt Js.or_default]. rewrite truthy_app_cons. cbn [negb].
    rewrite (split_on_app " " scheme tail Hscheme), Htail. cbn [nth_error].
    cbn [Js.truthy_opt Js.or_default]. rewrite Htruthy.
    reflexivity. }
  split.
  - apply (Hgen token []). now apply split_on_free.
  - apply (Hgen (token ++ String " " rest) (split_on " " rest)).
    now apply split_on_app.
Qed.

Lemma auth_verifies_second_word_witness :
  authMiddleware demo_env (Some "Basic good") = Next
  /\ authMiddleware demo_env (Some "Basic good and more") = Next.
Proof.
  apply (auth_verifies_second_word demo_env "Basic" "good" "and more");
    reflexivity.
Defined.

(** X2: a request without an [authorization] header, or with an empty
    one, is answered 401 [No token provided]; a header of one word only
    (no space in it) is answered 401 [Invalid token].  Neither case
    depends on what [jwt.verify] would say. *)
Theorem auth_rejects_without_token
        (E : Env) (authorization : option string) (header : string) :
  (Js.truthy_opt authorization = false ->
   authMiddleware E authorization = Stop (unauthorized "No token provided"))
  /\ (Js.truthy header = true -> free_of " " header = true ->
      authMiddleware E (Some header) = Stop (unauthorized "Invalid token")).
Proof.
  split.
  - intros Hfalsy. unfold authMiddleware. now rewrite Hfalsy.
  - intros Htruthy Hfree. unfold authMiddleware.
    cbn [Js.truthy_opt Js.or_default]. rewrite Htruthy. cbn [negb].
    now rewrite (split_on_free _ _ Hfree).
Qed.

Lemma auth_rejects_without_token_witness :
  authMiddleware demo_env None = Stop (unauthorized "No token provided")
  /\ authMiddleware demo_env (Some "good") = Stop (unauthorized "Invalid token").
Proof.
  destruct (auth_rejects_without_token demo_env None "good") as [Hnone Hword].
  split; [apply Hnone | apply Hword]; reflexivity.
Defined.

(** X3: [authMiddleware] lets a request through only if it carries a
    non-empty header whose second space-separated word is non-empty and
    accepted by [jwt.verify]. *)
Theorem auth_next_only_verified
        (E : Env) (authorization : option string) :
  authMiddleware E authorization = Next ->
  exists header token,
    authorization = Some header
    /\ Js.truthy header = true
    /\ nth_error (split_on " " header) 1 = Some token
    /\ Js.truthy token = true
    /\ jwt_verify E token = true.
Proof.
  unfold authMiddleware.
  destruct authorization as [header|]; cbn [Js.truthy_opt]; [|discriminate].
  destruct (Js.truthy header) eqn:Hheader; cbn [negb]; [|discriminate].
  rewrite (or_default_truthy header "" Hheader).
  destruct (nth_error (split_on " " header) 1) as [token|] eqn:Hnth;
    cbn [Js.truthy_opt]; [|discriminate].
  destruct (Js.truthy token) eqn:Htoken; cbn [negb]; [|discriminate].
  rewrite (or_default_truthy token "" Htoken).
  destruct (jwt_verify E token) eqn:Hverify; [|discriminate].
  intros _. exists header, token. repeat split; assumption || reflexivity.
Qed.

Lemma auth_next_only_verified_witness :
  exists header token,
    Some "Bearer good" = Some header
    /\ Js.truthy header = true
    /\ nth_error (split_on " " header) 1 = Some token
    /\ Js.truthy token = true
    /\ jwt_verify demo_env token = true.
Proof.
  apply (auth_next_only_verified demo_env (Some "Bearer good")). reflexivity.
Defined.

(** X4: in [server.js] the authentication runs ahead of multer, so an
    upload that [authMiddleware] stops is answered 401 or 403 and leaves
    the documents and the upload directory as they were: no file is
    written for it. *)
Theorem stopped_upload_writes_nothing
        (E : Env) (F : Faults) (req : UploadRequest) (st : Store) :
  authMiddleware E (authorization req) <> Next ->
  snd (post_api_upload E F req st) = st
  /\ exists r, fst (post_api_upload E F req st) = Resolved r
               /\ (status r = 401%N \/ status r = 403%N).
Proof.
  intros Hstop. unfold post_api_upload.
  destruct (authMiddleware E (authorization req)) as [|r] eqn:Hgate; [congruence|].
  split; [reflexivity|]. exists r. split; [reflexivity|].
  revert Hgate. unfold authMiddleware.
  repeat match goal with
         | |- context [if ?b then _ else _] => destruct b
         end; intros [= <-]; cbn [status]; auto.
Qed.

Lemma stopped_upload_writes_nothing_witness :
  snd (post_api_upload demo_env no_faults anonymous_request empty_store) = empty_store
  /\ exists r,
       fst (post_api_upload demo_env no_faults anonymous_request empty_store)
       = Resolved r
       /\ (status r = 401%N \/ status r = 403%N).
Proof.
  apply (stopped_upload_writes_nothing demo_env no_faults anonymous_request
           empty_store).
  vm_compute. discriminate.
Defined.

(** ** [GET /api/images] *)

Lemma add_doc_lookup (m : gmap string string) (d : Doc.t) (key : string) :
  add_doc m d !! key
  = if decide (Doc.key d = key /\ key <> "__proto__") then Some (Doc.url d)
    else m !! key.
Proof.
  unfold add_doc, Js.set_property.
  destruct (String.eqb_spec (Doc.key d) "__proto__") as [Hproto|Hproto].
  - case_decide as H; [|reflexivity]. destruct H as [<- H]. congruence.
  - case_decide as H.
    + destruct H as [<- _]. apply lookup_insert_eq.
    + apply lookup_insert_ne. intros Heq. apply H. split; congruence.
Qed.

Lemma foldl_add_doc_other (entries : list (string * (string * string)))
      (acc : gmap string string) (key : string) :
  key ∉ entries.*1 \/ key = "__proto__" ->
  foldl add_doc acc (map (fun ke => Image.doc_of ke.1 ke.2) entries) !! key
  = acc !! key.
Proof.
  revert acc. induction entries as [|[k e] entries IH]; intros acc Hnot;
    [reflexivity|].
  cbn [map foldl]. rewrite IH.
  - rewrite add_doc_lookup. case_decide as H; [|reflexivity].
    destruct H as [Hk Hproto]. cbn in Hk. subst k.
    destruct Hnot as [Hnot|Hnot]; [|congruence].
    exfalso. apply Hnot. cbn. apply elem_of_cons. now left.
  - destruct Hnot as [Hnot|Hnot]; [left|now right].
    intros Hin. apply Hnot. cbn. apply elem_of_cons. now right.
Qed.

Lemma foldl_add_doc_found (entries : list (string * (string * string)))
      (acc : gmap string string) (key : string) (e : string * string) :
  NoDup entries.*1 ->
  (key, e) ∈ entries ->
  key <> "__proto__" ->
  foldl add_doc acc (map (fun ke => Image.doc_of ke.1 ke.2) entries) !! key
  = Some e.1.
Proof.
  revert acc. induction entries as [|[k e'] entries IH];
    intros acc Hnodup Hin Hproto.
  - now apply elem_of_nil in Hin.
  - cbn [fmap list_fmap] in Hnodup. apply NoDup_cons in Hnodup as [Hfresh Hnodup].
    cbn [map foldl].
    apply elem_of_cons in Hin as [[= <- <-]|Hin].
    + rewrite foldl_add_doc_other by (left; exact Hfresh).
      rewrite add_doc_lookup. case_decide as H; [reflexivity|].
      exfalso. apply H. now split.
    + now apply IH.
Qed.

Lemma get_api_images_run (F : Faults) (st : Store) :
  find_rejects F = false ->
  get_api_images F st = (Resolved (listed (listing st)), st).
Proof.
  intros Hfind. unfold get_api_images, bind, Image.find, res_json, ret, listed.
  rewrite Hfind.
  enough (foldl add_doc ∅
            (map (fun ke => Image.doc_of ke.1 ke.2) (map_to_list (pics st)))
          = listing st) as Hmap
    by (unfold add_doc in Hmap; now rewrite Hmap).
  apply map_eq. intros key. unfold listing.
  destruct (decide (key = "__proto__")) as [->|Hproto].
  - rewrite foldl_add_doc_other by now right.
    now rewrite lookup_empty, lookup_delete_eq.
  - rewrite lookup_delete_ne by congruence. rewrite lookup_fmap.
    destruct (pics st !! key) as [e|] eqn:Hkey; cbn.
    + apply foldl_add_doc_found; [| |exact Hproto].
      * apply NoDup_fst_map_to_list.
      * now apply elem_of_map_to_list.
    + rewrite foldl_add_doc_other; [apply lookup_empty|]. left.
      intros ([k e] & -> & Hin)%list_elem_of_fmap.
      apply elem_of_map_to_list in Hin. cbn in Hkey. congruence.
Qed.

Lemma listed_inj (m1 m2 : gmap string string) :
  Resolved (listed m1) = Resolved (listed m2) -> m1 = m2.
Proof. now intros [= ->]. Qed.

(** X5: when the queries resolve, [GET /api/images] leaves the store as
    it was and answers a map that binds a key to a url exactly when the
    key is not [__proto__] and [GET /api/images/:key] finds that key with
    that url.  A document whose key is [__proto__] is found by the lookup
    but, the map being built by assignment on [{}], is never listed. *)
Theorem list_agrees_with_lookup (F F' : Faults) (st : Store) :
  find_rejects F = false ->
  findOne_rejects F' = false ->
  exists m,
    get_api_images F st = (Resolved (listed m), st)
    /\ m !! "__proto__" = None
    /\ forall key url,
         m !! key = Some url
         <-> key <> "__proto__"
             /\ fst (get_api_images_key F' key st) = Resolved (found key url).
Proof.
  intros Hfind Hone. exists (listing st).
  split; [now apply get_api_images_run|]. unfold listing.
  split; [apply lookup_delete_eq|].
  intros key url. rewrite get_api_images_key_run, Hone.
  destruct (decide (key = "__proto__")) as [->|Hproto].
  - rewrite lookup_delete_eq. split; [discriminate | now intros [? _]].
  - rewrite lookup_delete_ne by congruence. rewrite lookup_fmap.
    destruct (pics st !! key) as [[u name]|]; cbn.
    + split; [now intros [= ->] | now intros [_ [= ->]]].
    + split; [discriminate | now intros [_ ?]].
Qed.

Lemma list_agrees_with_lookup_witness :
  exists m,
    get_api_images no_faults proto_store = (Resolved (listed m), proto_store)
    /\ m !! "__proto__" = None
    /\ forall key url,
         m !! key = Some url
         <-> key <> "__proto__"
             /\ fst (get_api_images_key no_faults key proto_store)
                = Resolved (found key url).
Proof.
  apply (list_agrees_with_lookup no_faults no_faults proto_store); reflexivity.
Defined.

(** ** What the routes do to the two stores *)

Lemma delete_route_pics (E : Env) (F : Faults) (key : string) (st : Store) :
  pics (snd (delete_api_images_key E F key st))
  = if findOneAndDelete_rejects F then pics st else delete key (pics st).
Proof.
  rewrite delete_api_images_key_run.
  destruct (findOneAndDelete_rejects F); [reflexivity|]. cbn [snd].
  destruct (pics st !! key) as [[u name]|]; [|reflexivity].
  destruct (Js.truthy name); [|reflexivity].
  now rewrite unlink_if_exists_run.
Qed.

Lemma delete_route_uploads (E : Env) (F : Faults) (key : string) (st : Store)
      (p : string) :
  (forall url name, pics st !! key = Some (url, name) -> p <> upload_path E name) ->
  uploads (snd (delete_api_images_key E F key st)) !! p = uploads st !! p.
Proof.
  intros Hp. rewrite delete_api_images_key_run.
  destruct (findOneAndDelete_rejects F); [reflexivity|]. cbn [snd].
  destruct (pics st !! key) as [[u name]|]; [|reflexivity].
  destruct (Js.truthy name); [|reflexivity].
  rewrite unlink_if_exists_run. cbn [snd uploads].
  destruct (unlink_errors F); [reflexivity|].
  apply lookup_delete_ne. intros Heq. now apply (Hp u name).
Qed.

Lemma after_multer_pics (E : Env) (req : UploadRequest) (st : Store) :
  pics (after_multer E req st) = pics st.
Proof. unfold after_multer. now destruct (image req) as [[o d]|]. Qed.

Lemma after_cleanup_uploads (E : Env) (F : Faults) (key new_name : string)
      (st : Store) (p : string) :
  (forall url old, pics st !! key = Some (url, old) -> old <> new_name ->
                   p <> upload_path E old) ->
  uploads (after_cleanup E F key new_name st) !! p = uploads st !! p.
Proof.
  intros Hp. unfold after_cleanup.
  destruct (pics st !! key) as [[u old]|]; [|reflexivity].
  destruct (Js.truthy old); cbn [andb]; [|reflexivity].
  destruct (String.eqb_spec old new_name) as [Heq|Hne]; cbn [negb]; [reflexivity|].
  rewrite unlink_if_exists_run. cbn [snd uploads].
  destruct (unlink_errors F); [reflexivity|].
  apply lookup_delete_ne. intros Heq. now apply (Hp u old).
Qed.

(** The store an upload leaves, case by case. *)
Lemma upload_route_store (E : Env) (F : Faults) (req : UploadRequest) (st : Store) :
  let st0 := after_multer E req st in
  snd (upload_route E F req st)
  = match body_key req, stored_file req with
    | Some key, Some file =>
        if Js.truthy key && negb (findOne_rejects F)
        then
          let st1 := after_cleanup E F key (File.filename file) st0 in
          if findOneAndUpdate_rejects F then st1
          else {| pics := <[key := (file_url E (File.filename file),
                                    File.filename file)]> (pics st1);
                  uploads := uploads st1 |}
        else st0
    | _, _ => st0
    end.
Proof.
  intros st0. subst st0. upload_cases req Hk.
  - rewrite Hk. destruct (findOne_rejects F); [reflexivity|].
    cbn zeta. cbn [andb negb]. destruct (findOneAndUpdate_rejects F); reflexivity.
  - reflexivity.
  - destruct (body_key req) as [k|]; [|reflexivity].
    cbn in Hk. rewrite Hk. cbn [andb]. now destruct (stored_file req).
Qed.

Lemma upload_route_pics_success
      (E : Env) (F : Faults) (req : UploadRequest) (st : Store) (key url : string) :
  fst (upload_route E F req st) = Resolved (uploaded key url) ->
  exists name, pics (snd (upload_route E F req st)) = <[key := (url, name)]> (pics st).
Proof.
  upload_cases req Hk; [|discriminate|discriminate].
  destruct (findOne_rejects F); [discriminate|].
  cbn zeta. destruct (findOneAndUpdate_rejects F); [discriminate|].
  cbn [fst snd pics]. intros [= <- <-].
  eexists. now rewrite after_cleanup_pics, after_multer_pics.
Qed.

Lemma upload_route_pics_failure
      (E : Env) (F : Faults) (req : UploadRequest) (st : Store) (r : Response) :
  fst (upload_route E F req st) = Resolved r ->
  status r <> 200%N ->
  pics (snd (upload_route E F req st)) = pics st.
Proof.
  upload_cases req Hk.
  - destruct (findOne_rejects F);
      [intros _ _; cbn [snd]; apply after_multer_pics|].
    cbn zeta. destruct (findOneAndUpdate_rejects F); cbn [fst snd pics].
    + intros _ _. now rewrite after_cleanup_pics, after_multer_pics.
    + intros [= <-]. cbn [status uploaded]. congruence.
  - intros _ _. apply after_multer_pics.
  - intros _ _. apply after_multer_pics.
Qed.

(** X6: listing right after a delete gives the former listing without
    the deleted key: the other keys keep their urls. *)
Theorem list_after_delete
        (E : Env) (F F' : Faults) (key : string) (st : Store)
        (m : gmap string string) :
  fst (get_api_images F' st) = Resolved (listed m) ->
  findOneAndDelete_rejects F = false ->
  fst (get_api_images F' (snd (delete_api_images_key E F key st)))
  = Resolved (listed (delete key m)).
Proof.
  intros Hbefore Hdel.
  destruct (find_rejects F') eqn:Hfind.
  { unfold get_api_images, bind, Image.find in Hbefore.
    rewrite Hfind in Hbefore. discriminate. }
  rewrite (get_api_images_run F' st Hfind) in Hbefore.
  apply listed_inj in Hbefore. subst m.
  rewrite (get_api_images_run F' _ Hfind). cbn [fst]. unfold listing.
  rewrite delete_route_pics, Hdel, fmap_delete. now rewrite delete_delete.
Qed.

Lemma list_after_delete_witness :
  fst (get_api_images no_faults
         (snd (delete_api_images_key demo_env no_faults "logo" two_store)))
  = Resolved (listed (delete "logo" (listing two_store)))
  /\ delete "logo" (listing two_store)
     = {["hero" := file_url demo_env "1690000000009_hero_hero_banner.jpg"]}.
Proof.
  split; [|vm_compute; reflexivity].
  apply (list_after_delete demo_env no_faults no_faults "logo" two_store
           (listing two_store)).
  - now rewrite get_api_images_run.
  - reflexivity.
Defined.

(** X7: listing right after an upload that answered success with [key]
    and [url] gives the former listing with [key] set to [url] the way
    an assignment on [{}] sets it: bound to [url], except that the key
    [__proto__] is still not listed.  The other keys keep their urls. *)
Theorem list_after_upload
        (E : Env) (F F' : Faults) (req : UploadRequest) (st : Store)
        (key url : string) (m : gmap string string) :
  fst (get_api_images F' st) = Resolved (listed m) ->
  fst (upload_route E F req st) = Resolved (uploaded key url) ->
  fst (get_api_images F' (snd (upload_route E F req st)))
  = Resolved (listed (Js.set_property m key url)).
Proof.
  intros Hbefore Hup.
  destruct (find_rejects F') eqn:Hfind.
  { unfold get_api_images, bind, Image.find in Hbefore.
    rewrite Hfind in Hbefore. discriminate. }
  rewrite (get_api_images_run F' st Hfind) in Hbefore.
  apply listed_inj in Hbefore. subst m.
  rewrite (get_api_images_run F' _ Hfind). cbn [fst]. unfold listing.
  destruct (upload_route_pics_success E F req st key url Hup) as [name ->].
  rewrite fmap_insert. cbn [fst]. unfold Js.set_property.
  destruct (String.eqb_spec key "__proto__") as [->|Hproto].
  - now rewrite delete_insert_eq.
  - now rewrite delete_insert_ne by congruence.
Qed.

Lemma list_after_upload_witness :
  fst (get_api_images no_faults
         (snd (upload_route demo_env no_faults hero_request logo_store)))
  = Resolved
      (listed (Js.set_property (listing logo_store) "hero"
                 (file_url demo_env "1690000000009_hero_hero_banner.jpg")))
  /\ fst (get_api_images no_faults
            (snd (upload_route demo_env no_faults proto_request logo_store)))
     = Resolved (listed (listing logo_store)).
Proof.
  split.
  - apply (list_after_upload demo_env no_faults no_faults hero_request logo_store
             "hero" (file_url demo_env "1690000000009_hero_hero_banner.jpg")
             (listing logo_store)).
    + now rewrite get_api_images_run.
    + vm_compute. reflexivity.
  - apply (list_after_upload demo_env no_faults no_faults proto_request logo_store
             "__proto__"
             (file_url demo_env "1690000000011___proto___p.png")
             (listing logo_store)).
    + now rewrite get_api_images_run.
    + vm_compute. reflexivity.
Defined.

(** X8: an upload changes no document but the one of the key it was
    sent for, whatever fails on the way. *)
Theorem upload_keeps_other_documents
        (E : Env) (F : Faults) (req : UploadRequest) (st : Store) (other : string) :
  body_key req <> Some other ->
  pics (snd (upload_route E F req st)) !! other = pics st !! other.
Proof.
  intros Hother. rewrite upload_route_store. cbn zeta.
  destruct (body_key req) as [key|]; [|now rewrite after_multer_pics].
  destruct (stored_file req) as [file|]; [|now rewrite after_multer_pics].
  destruct (Js.truthy key && negb (findOne_rejects F));
    [|now rewrite after_multer_pics].
  destruct (findOneAndUpdate_rejects F); cbn [pics].
  - now rewrite after_cleanup_pics, after_multer_pics.
  - rewrite lookup_insert_ne by congruence.
    now rewrite after_cleanup_pics, after_multer_pics.
Qed.

Lemma upload_keeps_other_documents_witness :
  pics (snd (upload_route demo_env no_faults replace_request two_store)) !! "hero"
  = pics two_store !! "hero"
  /\ pics (snd (upload_route demo_env no_faults replace_request two_store)) !! "logo"
     = Some (file_url demo_env "1690000000005_image_new_logo.png",
             "1690000000005_image_new_logo.png")
  /\ pics two_store !! "hero"
     = Some (file_url demo_env "1690000000009_hero_hero_banner.jpg",
             "1690000000009_hero_hero_banner.jpg").
Proof.
  split; [|split; vm_compute; reflexivity].
  apply (upload_keeps_other_documents demo_env no_faults replace_request
           two_store "hero").
  vm_compute. discriminate.
Defined.

(** X9: an upload touches at most two paths of the upload directory: the
    one multer writes the new file to, and the one of the file the
    document of its key named before.  Every other path holds what it
    held, whatever fails on the way. *)
Theorem upload_keeps_other_files
        (E : Env) (F : Faults) (req : UploadRequest) (st : Store) (p : string) :
  (forall originalname data, image req = Some (originalname, data) ->
     p <> upload_path E
            (storage.filename (key_at_filename req) originalname (now req))) ->
  (forall key url old, body_key req = Some key ->
     pics st !! key = Some (url, old) -> p <> upload_path E old) ->
  uploads (snd (upload_route E F req st)) !! p = uploads st !! p.
Proof.
  intros Hnew Hold.
  assert (uploads (after_multer E req st) !! p = uploads st !! p) as Hmulter.
  { unfold after_multer. destruct (image req) as [[o d]|]; [|reflexivity].
    cbn [uploads]. apply lookup_insert_ne. intros Heq.
    now apply (Hnew o d). }
  rewrite upload_route_store. cbn zeta.
  destruct (body_key req) as [key|]; [|exact Hmulter].
  destruct (stored_file req) as [file|]; [|exact Hmulter].
  destruct (Js.truthy key && negb (findOne_rejects F)); [|exact Hmulter].
  assert (uploads (after_cleanup E F key (File.filename file)
                     (after_multer E req st)) !! p = uploads st !! p) as Hclean.
  { rewrite after_cleanup_uploads; [exact Hmulter|].
    intros url old Hpic _. rewrite after_multer_pics in Hpic.
    now apply (Hold key url old). }
  destruct (findOneAndUpdate_rejects F); exact Hclean.
Qed.

Lemma upload_keeps_other_files_witness :
  uploads (snd (upload_route demo_env no_faults replace_request two_store))
    !! "/srv/uploads/1690000000009_hero_hero_banner.jpg"
  = uploads two_store !! "/srv/uploads/1690000000009_hero_hero_banner.jpg"
  /\ uploads two_store !! "/srv/uploads/1690000000009_hero_hero_banner.jpg"
     = Some "HHHH"
  /\ uploads two_store !! "/srv/uploads/1690000000000_logo_logo.png" = Some "AAAA"
  /\ uploads (snd (upload_route demo_env no_faults replace_request two_store))
       !! "/srv/uploads/1690000000000_logo_logo.png" = None.
Proof.
  split; [|repeat split; vm_compute; reflexivity].
  apply (upload_keeps_other_files demo_env no_faults replace_request two_store).
  - intros o d [= <- <-]. vm_compute. discriminate.
  - intros key url old [= <-] Hpic. vm_compute in Hpic.
    injection Hpic as <- <-. vm_compute. discriminate.
Defined.

(** X10: a delete changes no document but the one of its key and no path
    of the upload directory but the one of the file that document named,
    whatever fails on the way. *)
Theorem delete_keeps_the_rest
        (E : Env) (F : Faults) (key other p : string) (st : Store) :
  (other <> key ->
   pics (snd (delete_api_images_key E F key st)) !! other = pics st !! other)
  /\ ((forall url name, pics st !! key = Some (url, name) ->
         p <> upload_path E name) ->
      uploads (snd (delete_api_images_key E F key st)) !! p = uploads st !! p).
Proof.
  split.
  - intros Hother. rewrite delete_route_pics.
    destruct (findOneAndDelete_rejects F); [reflexivity|].
    now apply lookup_delete_ne.
  - apply delete_route_uploads.
Qed.

Lemma delete_keeps_the_rest_witness :
  pics (snd (delete_api_images_key demo_env no_faults "logo" two_store)) !! "hero"
  = pics two_store !! "hero"
  /\ uploads (snd (delete_api_images_key demo_env no_faults "logo" two_store))
       !! "/srv/uploads/1690000000009_hero_hero_banner.jpg"
     = uploads two_store !! "/srv/uploads/1690000000009_hero_hero_banner.jpg".
Proof.
  destruct (delete_keeps_the_rest demo_env no_faults "logo" "hero"
              "/srv/uploads/1690000000009_hero_hero_banner.jpg" two_store)
    as [Hpics Hfiles].
  split.
  - apply Hpics. discriminate.
  - apply Hfiles. intros url name Hpic. vm_compute in Hpic.
    injection Hpic as <- <-. vm_compute. discriminate.
Defined.

Lemma logo_store_pics :
  pics logo_store
  = {["logo" := (file_url demo_env "1690000000000_logo_logo.png",
                 "1690000000000_logo_logo.png")]}.
Proof. vm_compute. reflexivity. Qed.

Lemma two_store_pics :
  pics two_store
  = <["hero" := (file_url demo_env "1690000000009_hero_hero_banner.jpg",
                 "1690000000009_hero_hero_banner.jpg")]>
      {["logo" := (file_url demo_env "1690000000000_logo_logo.png",
                   "1690000000000_logo_logo.png")]}.
Proof. vm_compute. reflexivity. Qed.

(** The handler does not remove the file it was handed, as long as the
    file its key named before lies at another path. *)
Lemma upload_handler_keeps_file
      (E : Env) (F : Faults) (key : option string) (file : File.t) (st : Store)
      (data : string) :
  uploads st !! upload_path E (File.filename file) = Some data ->
  (forall k url old, key = Some k -> pics st !! k = Some (url, old) ->
     old <> File.filename file ->
     upload_path E old <> upload_path E (File.filename file)) ->
  uploads (snd (upload_handler E F key (Some file) st))
    !! upload_path E (File.filename file) = Some data.
Proof.
  intros Hfile Hpath.
  destruct (Js.truthy_opt key) eqn:Hk;
    [|now rewrite upload_handler_missing_key].
  destruct key as [k|]; [|discriminate]. cbn in Hk.
  rewrite upload_handler_run by exact Hk.
  destruct (findOne_rejects F); [exact Hfile|]. cbn zeta.
  assert (uploads (after_cleanup E F k (File.filename file) st)
            !! upload_path E (File.filename file) = Some data) as Hclean.
  { rewrite after_cleanup_uploads; [exact Hfile|].
    intros url old Hpic Hne Heq. now apply (Hpath k url old eq_refl Hpic Hne). }
  destruct (findOneAndUpdate_rejects F); exact Hclean.
Qed.

(** X11: when the document of the key already names the file multer has
    just written (same name), the handler unlinks nothing: the upload
    directory is the former one with the new bytes at that path. *)
Theorem upload_same_name_unlinks_nothing
        (E : Env) (F : Faults) (req : UploadRequest) (st : Store)
        (key originalname data url : string) :
  body_key req = Some key ->
  image req = Some (originalname, data) ->
  pics st !! key
  = Some (url, storage.filename (key_at_filename req) originalname (now req)) ->
  uploads (snd (upload_route E F req st))
  = <[upload_path E (storage.filename (key_at_filename req) originalname (now req))
      := data]> (uploads st).
Proof.
  intros Hbody Himg Hpic.
  set (name := storage.filename (key_at_filename req) originalname (now req)) in *.
  assert (uploads (after_multer E req st) = <[upload_path E name := data]> (uploads st))
    as Hmulter by (unfold after_multer; now rewrite Himg).
  rewrite upload_route_store. cbn zeta. rewrite Hbody.
  unfold stored_file. rewrite Himg. fold name. cbn [File.filename].
  destruct (Js.truthy key && negb (findOne_rejects F)); [|exact Hmulter].
  assert (after_cleanup E F key name (after_multer E req st) = after_multer E req st)
    as Hclean.
  { unfold after_cleanup. rewrite after_multer_pics, Hpic.
    rewrite String.eqb_refl. cbn [negb]. now rewrite andb_false_r. }
  rewrite Hclean. destruct (findOneAndUpdate_rejects F); exact Hmulter.
Qed.

Lemma upload_same_name_unlinks_nothing_witness :
  uploads (snd (upload_route demo_env no_faults logo_again logo_store))
  = <[upload_path demo_env (storage.filename (Some "logo") "logo.png" 1690000000000)
      := "ZZZZ"]> (uploads logo_store).
Proof.
  apply (upload_same_name_unlinks_nothing demo_env no_faults logo_again logo_store
           "logo" "logo.png" "ZZZZ"
           "http://localhost:4000/uploads/1690000000000_logo_logo.png").
  - reflexivity.
  - reflexivity.
  - vm_compute. reflexivity.
Defined.

(** What a success answer tells about the request and the store. *)
Lemma upload_route_success_inv
      (E : Env) (F : Faults) (req : UploadRequest) (st : Store) (key url : string) :
  fst (upload_route E F req st) = Resolved (uploaded key url) ->
  exists file,
    body_key req = Some key
    /\ stored_file req = Some file
    /\ url = file_url E (File.filename file)
    /\ pics (snd (upload_route E F req st)) !! key = Some (url, File.filename file).
Proof.
  rewrite upload_route_run.
  destruct (body_key req) as [k|] eqn:Hbody;
    [|now rewrite upload_handler_missing_key].
  destruct (Js.truthy k) eqn:Hk;
    [|now rewrite upload_handler_missing_key].
  destruct (stored_file req) as [file|] eqn:Hfile;
    [|now rewrite upload_handler_no_file].
  rewrite upload_handler_run by exact Hk.
  destruct (findOne_rejects F); [discriminate|].
  cbn zeta. destruct (findOneAndUpdate_rejects F); [discriminate|].
  cbn [fst snd pics]. intros [= <- <-].
  exists file. repeat split. apply lookup_insert_eq.
Qed.

(** X12: an upload that answers success leaves the document of its key
    naming the file multer wrote, with the url of the answer, and that
    file is in the upload directory with the uploaded bytes, provided the
    file the key named before lies at another path than the new one. *)
Theorem upload_success_file_exists
        (E : Env) (F : Faults) (req : UploadRequest) (st : Store)
        (key url originalname data : string) :
  image req = Some (originalname, data) ->
  fst (upload_route E F req st) = Resolved (uploaded key url) ->
  (forall url' old,
     pics st !! key = Some (url', old) ->
     old <> storage.filename (key_at_filename req) originalname (now req) ->
     upload_path E old
     <> upload_path E
          (storage.filename (key_at_filename req) originalname (now req))) ->
  let name := storage.filename (key_at_filename req) originalname (now req) in
  url = file_url E name
  /\ pics (snd (upload_route E F req st)) !! key = Some (url, name)
  /\ uploads (snd (upload_route E F req st)) !! upload_path E name = Some data.
Proof.
  intros Himg Hup Hpath name.
  destruct (upload_route_success_inv E F req st key url Hup)
    as (file & Hbody & Hfile & Hurl & Hpic).
  unfold stored_file in Hfile. rewrite Himg in Hfile.
  injection Hfile as <-. cbn [File.filename] in Hurl, Hpic.
  split; [exact Hurl|]. split; [exact Hpic|].
  rewrite upload_route_run. unfold stored_file. rewrite Himg.
  apply (upload_handler_keeps_file E F (body_key req)
           {| File.originalname := originalname; File.filename := name |}).
  - unfold after_multer. rewrite Himg. cbn [uploads File.filename].
    apply lookup_insert_eq.
  - cbn [File.filename]. intros k url' old Hk. rewrite after_multer_pics.
    rewrite Hbody in Hk. injection Hk as <-. apply Hpath.
Qed.

Lemma upload_success_file_exists_witness :
  let name := storage.filename None "new logo.png" 1690000000005 in
  file_url demo_env "1690000000005_image_new_logo.png" = file_url demo_env name
  /\ pics (snd (upload_route demo_env no_faults replace_request logo_store)) !! "logo"
     = Some (file_url demo_env "1690000000005_image_new_logo.png", name)
  /\ uploads (snd (upload_route demo_env no_faults replace_request logo_store))
       !! upload_path demo_env name = Some "BBBB".
Proof.
  apply (upload_success_file_exists demo_env no_faults replace_request logo_store
           "logo" (file_url demo_env "1690000000005_image_new_logo.png")
           "new logo.png" "BBBB").
  - reflexivity.
  - vm_compute. reflexivity.
  - intros url' old. rewrite logo_store_pics.
    intros [_ [= <- <-]]%lookup_singleton_Some _. vm_compute. discriminate.
Defined.

(** X13: the upload handler never takes back the file it was handed.
    When it runs on a file that multer has stored and answers with an
    error (400 or 500), no document has changed and the file is still in
    the upload directory, provided the file its key named before lies at
    another path. *)
Theorem failed_upload_leaves_file
        (E : Env) (F : Faults) (key : option string) (file : File.t) (st : Store)
        (data : string) (r : Response) :
  uploads st !! upload_path E (File.filename file) = Some data ->
  (forall k url old, key = Some k -> pics st !! k = Some (url, old) ->
     old <> File.filename file ->
     upload_path E old <> upload_path E (File.filename file)) ->
  fst (upload_handler E F key (Some file) st) = Resolved r ->
  status r <> 200%N ->
  pics (snd (upload_handler E F key (Some file) st)) = pics st
  /\ uploads (snd (upload_handler E F key (Some file) st))
       !! upload_path E (File.filename file) = Some data.
Proof.
  intros Hfile Hpath Hr Hstatus.
  split; [|now apply upload_handler_keeps_file].
  revert Hr. destruct (Js.truthy_opt key) eqn:Hk;
    [|now rewrite upload_handler_missing_key].
  destruct key as [k|]; [|discriminate]. cbn in Hk.
  rewrite upload_handler_run by exact Hk.
  destruct (findOne_rejects F); [reflexivity|]. cbn zeta.
  destruct (findOneAndUpdate_rejects F); cbn [fst snd].
  - intros _. apply after_cleanup_pics.
  - intros [= <-]. cbn [status uploaded] in Hstatus. congruence.
Qed.

Lemma failed_upload_leaves_file_witness :
  let file := {| File.originalname := "new logo.png";
                 File.filename := "1690000000005_image_new_logo.png" |} in
  let st := after_multer demo_env replace_request logo_store in
  fst (upload_handler demo_env upsert_rejects (Some "logo") (Some file) st)
  = Resolved upload_failed
  /\ pics (snd (upload_handler demo_env upsert_rejects (Some "logo") (Some file) st))
     = pics st
  /\ uploads (snd (upload_handler demo_env upsert_rejects (Some "logo") (Some file) st))
       !! upload_path demo_env "1690000000005_image_new_logo.png" = Some "BBBB".
Proof.
  intros file st.
  assert (fst (upload_handler demo_env upsert_rejects (Some "logo") (Some file) st)
          = Resolved upload_failed) as Hr by (vm_compute; reflexivity).
  split; [exact Hr|].
  apply (failed_upload_leaves_file demo_env upsert_rejects (Some "logo") file st
           "BBBB" upload_failed).
  - vm_compute. reflexivity.
  - intros k url old [= <-] Hpic. vm_compute in Hpic.
    injection Hpic as <- <-. intros _. vm_compute. discriminate.
  - exact Hr.
  - vm_compute. discriminate.
Defined.

(** X14: the upload handler catches what its queries throw: it always
    sends an answer.  The answer is 200 exactly when the key is
    non-empty, a file came and both queries resolve; every other answer
    is a 400 or a 500. *)
Theorem upload_handler_always_answers
        (E : Env) (F : Faults) (key : option string) (file : option File.t)
        (st : Store) :
  exists r,
    fst (upload_handler E F key file st) = Resolved r
    /\ (status r = 200%N
        <-> Js.truthy_opt key = true /\ file <> None
            /\ findOne_rejects F = false /\ findOneAndUpdate_rejects F = false)
    /\ (status r = 200%N \/ status r = 400%N \/ status r = 500%N).
Proof.
  destruct (Js.truthy_opt key) eqn:Hk.
  - destruct key as [k|]; [|discriminate]. cbn in Hk.
    destruct file as [file|].
    + rewrite upload_handler_run by exact Hk.
      destruct (findOne_rejects F) eqn:Hone;
        [|cbn zeta; destruct (findOneAndUpdate_rejects F) eqn:Hupd];
        eexists; (split; [reflexivity|]); cbn [status upload_failed uploaded];
        repeat split; try discriminate; auto;
        intros H; decompose [and] H; congruence.
    + rewrite upload_handler_no_file by exact Hk.
      eexists; (split; [reflexivity|]); cbn [status bad_request];
        repeat split; try discriminate; auto;
        intros H; decompose [and] H; congruence.
  - rewrite upload_handler_missing_key by exact Hk.
    eexists; (split; [reflexivity|]); cbn [status bad_request];
      repeat split; try discriminate; auto;
      intros H; decompose [and] H; congruence.
Qed.

(** X15: the lookup and delete routes have no [catch]: they send no
    answer exactly when their query rejects, and the store is then as it
    was; a lookup never changes the store. *)
Theorem no_answer_iff_query_rejects
        (E : Env) (F : Faults) (key : string) (st : Store) :
  (fst (get_api_images_key F key st) = Rejected <-> findOne_rejects F = true)
  /\ snd (get_api_images_key F key st) = st
  /\ (fst (delete_api_images_key E F key st) = Rejected
      <-> findOneAndDelete_rejects F = true)
  /\ (findOneAndDelete_rejects F = true ->
      snd (delete_api_images_key E F key st) = st).
Proof.
  rewrite get_api_images_key_run, delete_api_images_key_run.
  destruct (findOne_rejects F), (findOneAndDelete_rejects F),
    (pics st !! key) as [[u name]|]; cbn [fst snd];
    repeat split; intros; congruence.
Qed.

Lemma no_answer_iff_query_rejects_witness :
  fst (delete_api_images_key demo_env delete_rejects "logo" logo_store) = Rejected
  /\ snd (delete_api_images_key demo_env delete_rejects "logo" logo_store)
     = logo_store.
Proof.
  destruct (no_answer_iff_query_rejects demo_env delete_rejects "logo" logo_store)
    as (_ & _ & Hiff & Hsame).
  split; [apply Hiff | apply Hsame]; reflexivity.
Defined.

(** ** Documents and their files *)

Lemma after_multer_keeps_files (E : Env) (req : UploadRequest) (st : Store)
      (p : string) :
  is_Some (uploads st !! p) -> is_Some (uploads (after_multer E req st) !! p).
Proof.
  intros Hp. unfold after_multer. destruct (image req) as [[o d]|]; [|exact Hp].
  cbn [uploads]. apply lookup_insert_is_Some'. now right.
Qed.

Lemma logo_store_integrity :
  files_exist demo_env logo_store /\ paths_unshared demo_env logo_store.
Proof.
  split.
  - intros key url name. rewrite logo_store_pics.
    intros [<- [= <- <-]]%lookup_singleton_Some. vm_compute. eauto.
  - intros key1 key2 url1 url2 name1 name2. rewrite logo_store_pics.
    intros [<- _]%lookup_singleton_Some [<- _]%lookup_singleton_Some _.
    reflexivity.
Qed.

Lemma two_store_integrity :
  files_exist demo_env two_store /\ paths_unshared demo_env two_store.
Proof.
  split.
  - intros key url name. rewrite two_store_pics.
    intros [[<- [= <- <-]]|[_ [<- [= <- <-]]%lookup_singleton_Some]]%lookup_insert_Some;
      vm_compute; eauto.
  - intros key1 key2 url1 url2 name1 name2. rewrite two_store_pics.
    intros [[<- [= <- <-]]|[_ [<- [= <- <-]]%lookup_singleton_Some]]%lookup_insert_Some
           [[<- [= <- <-]]|[_ [<- [= <- <-]]%lookup_singleton_Some]]%lookup_insert_Some
           Hpath;
      try reflexivity; vm_compute in Hpath; discriminate.
Qed.

(** X16: a delete keeps a store in order: if before it every document
    named an existing file and no two documents named files at the same
    path, the same holds afterwards, whatever fails on the way. *)
Theorem delete_keeps_integrity
        (E : Env) (F : Faults) (key : string) (st : Store) :
  files_exist E st ->
  paths_unshared E st ->
  files_exist E (snd (delete_api_images_key E F key st))
  /\ paths_unshared E (snd (delete_api_images_key E F key st)).
Proof.
  intros Hexist Hunshared.
  assert (forall k u n,
            pics (snd (delete_api_images_key E F key st)) !! k = Some (u, n) ->
            pics st !! k = Some (u, n)
            /\ (findOneAndDelete_rejects F = false -> k <> key)) as Hsub.
  { intros k u n. rewrite delete_route_pics.
    destruct (findOneAndDelete_rejects F); [now split|].
    intros [Hne Hk]%lookup_delete_Some. split; [exact Hk|]. congruence. }
  split.
  - intros k u n Hk. destruct (Hsub k u n Hk) as [Hold Hne].
    destruct (findOneAndDelete_rejects F) eqn:Hdel.
    + rewrite delete_api_images_key_run, Hdel. cbn [snd]. now apply (Hexist k u).
    + rewrite delete_route_uploads; [now apply (Hexist k u)|].
      intros url name Hkey Heq.
      apply (Hne eq_refl). now apply (Hunshared k key u url n name).
  - intros k1 k2 u1 u2 n1 n2 H1 H2.
    apply (Hunshared k1 k2 u1 u2 n1 n2); [now apply Hsub | now apply Hsub].
Qed.

Lemma delete_keeps_integrity_witness :
  files_exist demo_env (snd (delete_api_images_key demo_env no_faults "logo" two_store))
  /\ paths_unshared demo_env
       (snd (delete_api_images_key demo_env no_faults "logo" two_store))
  /\ pics (snd (delete_api_images_key demo_env no_faults "logo" two_store)) !! "hero"
     = Some (file_url demo_env "1690000000009_hero_hero_banner.jpg",
             "1690000000009_hero_hero_banner.jpg").
Proof.
  destruct (delete_keeps_integrity demo_env no_faults "logo" two_store
              (proj1 two_store_integrity) (proj2 two_store_integrity))
    as [Hexist Hunshared].
  split; [exact Hexist|]. split; [exact Hunshared|]. vm_compute. reflexivity.
Defined.

(** X17: an upload keeps a store in order too (every document names an
    existing file, no two documents name files at the same path), as
    long as the path multer wrote the new file to is the path of no
    other document's file, that is, of no file but the one of the same
    name that the key of the request may already name, and the upsert is
    not rejected after the lookup went through. *)
Theorem upload_keeps_integrity
        (E : Env) (F : Faults) (req : UploadRequest) (st : Store) :
  files_exist E st ->
  paths_unshared E st ->
  (forall originalname data key url name,
     image req = Some (originalname, data) ->
     pics st !! key = Some (url, name) ->
     upload_path E name
     = upload_path E
         (storage.filename (key_at_filename req) originalname (now req)) ->
     body_key req = Some key
     /\ name = storage.filename (key_at_filename req) originalname (now req)) ->
  findOne_rejects F = true \/ findOneAndUpdate_rejects F = false ->
  files_exist E (snd (upload_route E F req st))
  /\ paths_unshared E (snd (upload_route E F req st)).
Proof.
  intros Hexist Hunshared Hfresh Hok.
  assert (files_exist E (after_multer E req st)
          /\ paths_unshared E (after_multer E req st)) as Hmulter.
  { split.
    - intros k u n. rewrite after_multer_pics. intros Hk.
      apply after_multer_keeps_files. now apply (Hexist k u).
    - intros k1 k2 u1 u2 n1 n2. rewrite !after_multer_pics. apply Hunshared. }
  rewrite upload_route_store. cbn zeta.
  destruct (body_key req) as [key|] eqn:Hbody; [|exact Hmulter].
  destruct (stored_file req) as [file|] eqn:Hfile; [|exact Hmulter].
  destruct (Js.truthy key) eqn:Hk; cbn [andb]; [|exact Hmulter].
  destruct (findOne_rejects F) eqn:Hone; cbn [negb]; [exact Hmulter|].
  destruct Hok as [Hok|Hok]; [discriminate|]. rewrite Hok.
  unfold stored_file in Hfile.
  destruct (image req) as [[o d]|] eqn:Himg; [|discriminate].
  injection Hfile as <-. cbn [File.filename].
  set (name := storage.filename (key_at_filename req) o (now req)) in *.
  assert (forall k u n, pics st !! k = Some (u, n) ->
            upload_path E n = upload_path E name -> k = key /\ n = name)
    as Hfresh'.
  { intros k u n Hpic Heq.
    destruct (Hfresh o d k u n eq_refl Hpic Heq) as [[= ->] ->]. now split. }
  split.
  - intros k u n. cbn [pics uploads].
    rewrite after_cleanup_pics, after_multer_pics.
    destruct (decide (k = key)) as [->|Hne].
    + rewrite lookup_insert_eq. intros [= <- <-].
      rewrite after_cleanup_uploads.
      * unfold after_multer. rewrite Himg. cbn [uploads].
        apply lookup_insert_is_Some'. now left.
      * intros url old Hold Hdiff Heq. rewrite after_multer_pics in Hold.
        apply Hdiff. symmetry in Heq. now apply (Hfresh' key url old).
    + rewrite lookup_insert_ne by congruence. intros Hk'.
      rewrite after_cleanup_uploads.
      * apply after_multer_keeps_files. now apply (Hexist k u).
      * intros url old Hold _ Heq. rewrite after_multer_pics in Hold.
        apply Hne. now apply (Hunshared k key u url n old).
  - intros k1 k2 u1 u2 n1 n2. cbn [pics].
    rewrite after_cleanup_pics, after_multer_pics.
    destruct (decide (k1 = key)) as [->|Hne1], (decide (k2 = key)) as [->|Hne2];
      rewrite ?lookup_insert_eq, ?lookup_insert_ne by congruence.
    + reflexivity.
    + intros [= _ <-] H2 Heq. symmetry in Heq.
      now destruct (Hfresh' k2 u2 n2 H2 Heq).
    + intros H1 [= _ <-] Heq. now destruct (Hfresh' k1 u1 n1 H1 Heq).
    + apply Hunshared.
Qed.

Lemma upload_keeps_integrity_witness :
  files_exist demo_env (snd (upload_route demo_env no_faults replace_request two_store))
  /\ paths_unshared demo_env
       (snd (upload_route demo_env no_faults replace_request two_store)).
Proof.
  apply (upload_keeps_integrity demo_env no_faults replace_request two_store).
  - exact (proj1 two_store_integrity).
  - exact (proj2 two_store_integrity).
  - intros o d key url name [= <- <-]. rewrite two_store_pics.
    intros [[<- [= <- <-]]|[_ [<- [= <- <-]]%lookup_singleton_Some]]%lookup_insert_Some
           Hpath; vm_compute in Hpath; discriminate.
  - right. reflexivity.
Defined.

(** X18: when two documents name the same file, deleting one of them
    removes the file the other one goes on naming. *)
Theorem delete_removes_shared_file
        (E : Env) (F : Faults) (key other url url' name : string) (st : Store) :
  pics st !! key = Some (url, name) ->
  pics st !! other = Some (url', name) ->
  other <> key ->
  Js.truthy name = true ->
  findOneAndDelete_rejects F = false ->
  unlink_errors F = false ->
  pics (snd (delete_api_images_key E F key st)) !! other = Some (url', name)
  /\ uploads (snd (delete_api_images_key E F key st)) !! upload_path E name = None.
Proof.
  intros Hkey Hother Hne Hname Hdel Hunlink. split.
  - rewrite delete_route_pics, Hdel. now rewrite lookup_delete_ne by congruence.
  - rewrite delete_api_images_key_run, Hdel, Hkey, Hname. cbn zeta.
    rewrite unlink_if_exists_run, Hunlink. cbn [snd uploads].
    apply lookup_delete_eq.
Qed.

Lemma delete_removes_shared_file_witness :
  pics (snd (delete_api_images_key demo_env no_faults "a" shared_store)) !! "a_b"
  = Some ("http://localhost:4000/uploads/1_a_b_c.png", "1_a_b_c.png")
  /\ uploads (snd (delete_api_images_key demo_env no_faults "a" shared_store))
       !! upload_path demo_env "1_a_b_c.png" = None.
Proof.
  apply (delete_removes_shared_file demo_env no_faults "a" "a_b"
           "http://localhost:4000/uploads/1_a_b_c.png"
           "http://localhost:4000/uploads/1_a_b_c.png" "1_a_b_c.png" shared_store).
  - vm_compute. reflexivity.
  - vm_compute. reflexivity.
  - discriminate.
  - reflexivity.
  - reflexivity.
  - reflexivity.
Defined.

(** ** More on file names and urls *)

Lemma safe_app (a b : string) : safe (a ++ b) = safe a ++ safe b.
Proof.
  induction a as [|c a IH]; [reflexivity|].
  rewrite append_cons, !safe_cons, append_cons. now rewrite IH.
Qed.

Lemma safe_fixed (s : string) : all_chars safe_char s = true -> safe s = s.
Proof.
  induction s as [|c s IH]; [reflexivity|].
  cbn [all_chars]. intros [Hc Hs]%andb_true_iff.
  rewrite safe_cons, Hc. now rewrite (IH Hs).
Qed.

Lemma safe_all_safe (s : string) : all_chars safe_char (safe s) = true.
Proof.
  induction s as [|c s IH]; [reflexivity|].
  rewrite safe_cons. cbn [all_chars]. rewrite IH, andb_true_r.
  destruct (safe_char c) eqn:Hc; [exact Hc | reflexivity].
Qed.

Lemma all_chars_free (p : ascii -> bool) (c : ascii) (s : string) :
  p c = false -> all_chars p s = true -> free_of c s = true.
Proof.
  intros Hc. induction s as [|d s IH]; [reflexivity|].
  cbn [all_chars free_of]. intros [Hd Hs]%andb_true_iff.
  rewrite (IH Hs), andb_true_r. apply negb_true_iff.
  destruct (Ascii.eqb_spec d c) as [->|]; [congruence | reflexivity].
Qed.

(** X19: different pairs of key and original name can get the same file
    name at the same instant: an underscore-separated piece may belong to
    the end of the key or to the start of a name that needs no
    sanitizing. *)
Theorem filename_collision
        (key piece originalname : string) (now : N) :
  Js.truthy key = true ->
  all_chars safe_char piece = true ->
  storage.filename (Some (key ++ "_" ++ piece)) originalname now
  = storage.filename (Some key) (piece ++ "_" ++ originalname) now.
Proof.
  intros Hkey Hpiece.
  rewrite (filename_truthy key) by exact Hkey.
  rewrite filename_truthy by (destruct key; [discriminate | reflexivity]).
  rewrite !safe_app, (safe_fixed piece Hpiece).
  change (safe "_") with "_".
  now rewrite !append_assoc_str.
Qed.

Lemma filename_collision_witness :
  storage.filename (Some ("a" ++ "_" ++ "b")) "c.png" 1
  = storage.filename (Some "a") ("b" ++ "_" ++ "c.png") 1.
Proof. apply (filename_collision "a" "b" "c.png" 1); reflexivity. Defined.

(** X20: a sanitized name has characters of the class only, so no [/]
    and no backslash, and sanitizing it again changes nothing. *)
Theorem safe_name_is_clean (originalname : string) :
  all_chars safe_char (safe originalname) = true
  /\ free_of "/" (safe originalname) = true
  /\ free_of "\" (safe originalname) = true
  /\ safe (safe originalname) = safe originalname.
Proof.
  pose proof (safe_all_safe originalname) as Hall.
  split; [exact Hall|].
  split; [now apply (all_chars_free safe_char)|].
  split; [now apply (all_chars_free safe_char)|].
  now apply safe_fixed.
Qed.

Lemma all_chars_app (p : ascii -> bool) (a b : string) :
  all_chars p (a ++ b) = all_chars p a && all_chars p b.
Proof.
  induction a as [|c a IH]; [reflexivity|].
  rewrite append_cons. cbn [all_chars]. now rewrite IH, andb_assoc.
Qed.

Lemma all_chars_impl (p q : ascii -> bool) (s : string) :
  (forall c, p c = true -> q c = true) ->
  all_chars p s = true -> all_chars q s = true.
Proof.
  intros Hpq. induction s as [|c s IH]; [reflexivity|].
  cbn [all_chars]. intros [Hc Hs]%andb_true_iff.
  now rewrite (Hpq c Hc), (IH Hs).
Qed.

Lemma safe_char_unreserved (c : ascii) :
  safe_char c = true -> uri_unreserved c = true.
Proof.
  destruct c as [[] [] [] [] [] [] [] []]; vm_compute;
    intros H; reflexivity || discriminate H.
Qed.

Lemma encode_fixed (s : string) :
  all_chars uri_unreserved s = true -> encodeURIComponent s = s.
Proof.
  induction s as [|c s IH]; [reflexivity|].
  cbn [all_chars encodeURIComponent]. intros [Hc Hs]%andb_true_iff.
  unfold encode_unit. rewrite Hc, (IH Hs). reflexivity.
Qed.

Lemma digits_unreserved (d : Decimal.uint) :
  all_chars uri_unreserved (NilEmpty.string_of_uint d) = true.
Proof. induction d; cbn [NilEmpty.string_of_uint all_chars]; auto. Qed.

Lemma of_number_unreserved (n : N) :
  all_chars uri_unreserved (Js.of_number n) = true.
Proof.
  unfold Js.of_number, NilZero.string_of_uint.
  destruct (N.to_uint n) eqn:Hd; try reflexivity; rewrite <- Hd;
    apply digits_unreserved.
Qed.

(** X21: when the key part of a file name has only characters that
    [encodeURIComponent] leaves alone (as the default [image] has), the
    whole name does, and the url of the file is the base url,
    [/uploads/] and the name as it is on disk. *)
Theorem url_is_plain_filename
        (E : Env) (body_key : option string) (originalname : string) (now : N) :
  all_chars uri_unreserved (Js.or_default body_key "image") = true ->
  file_url E (storage.filename body_key originalname now)
  = BASE_URL E ++ "/uploads/" ++ storage.filename body_key originalname now.
Proof.
  intros Hkey. unfold file_url. do 2 f_equal. apply encode_fixed.
  unfold storage.filename. cbn zeta.
  rewrite !all_chars_app, of_number_unreserved, Hkey. cbn [all_chars andb].
  apply (all_chars_impl safe_char); [exact safe_char_unreserved|].
  apply safe_all_safe.
Qed.

Lemma url_is_plain_filename_witness :
  file_url demo_env (storage.filename None "my cv (final).pdf" 1690000000000)
  = BASE_URL demo_env ++ "/uploads/"
    ++ storage.filename None "my cv (final).pdf" 1690000000000.
Proof.
  apply (url_is_plain_filename demo_env None "my cv (final).pdf" 1690000000000).
  reflexivity.
Defined.

(** ** The admin routes *)

Lemma strict_eq_true (a b : option string) : strict_eq a b = true <-> a = b.
Proof.
  destruct a as [x|], b as [y|]; cbn [strict_eq]; try (split; congruence).
  rewrite String.eqb_eq. split; congruence.
Qed.

(** X22: [POST /api/login] refuses with 401 exactly when the username or
    the password of the body differs from the configured one; a token is
    only ever given for the configured pair.  The comparison is [===] on
    possibly undefined values: where neither variable is configured, a
    body with neither field is not refused and gets the token, if
    [jwt.sign] gives one. *)
Theorem login_accepts_configured_pair
        (A : AdminEnv) (c : Credentials.t) :
  (post_api_login A c = Resolved (Refused 401 "Invalid credentials")
   <-> ~ (Credentials.username c = ADMIN_USER A
          /\ Credentials.password c = ADMIN_PASS A))
  /\ (forall token,
        post_api_login A c = Resolved (Token token) ->
        Credentials.username c = ADMIN_USER A
        /\ Credentials.password c = ADMIN_PASS A
        /\ jwt_sign A (ADMIN_USER A) = Some token)
  /\ (ADMIN_USER A = None -> ADMIN_PASS A = None ->
      forall token, jwt_sign A None = Some token ->
        post_api_login A {| Credentials.username := None;
                            Credentials.password := None |}
        = Resolved (Token token)).
Proof.
  unfold post_api_login.
  destruct (strict_eq (Credentials.username c) (ADMIN_USER A)) eqn:Huser;
    [destruct (strict_eq (Credentials.password c) (ADMIN_PASS A)) eqn:Hpass|];
    cbn [andb].
  - apply strict_eq_true in Huser, Hpass.
    split; [|split].
    + destruct (jwt_sign A (ADMIN_USER A)); split; try discriminate; tauto.
    + intros token.
      destruct (jwt_sign A (ADMIN_USER A)); [|discriminate].
      intros [= ->]. auto.
    + intros -> -> token ->. reflexivity.
  - split; [|split].
    + split; [|reflexivity]. intros _ [_ Heq].
      apply strict_eq_true in Heq. congruence.
    + discriminate.
    + intros -> -> token ->. reflexivity.
  - split; [|split].
    + split; [|reflexivity]. intros _ [Heq _].
      apply strict_eq_true in Heq. congruence.
    + discriminate.
    + intros -> -> token ->. reflexivity.
Qed.

Lemma login_accepts_configured_pair_witness :
  post_api_login unset_admin {| Credentials.username := None;
                                Credentials.password := None |}
  = Resolved (Token "good").
Proof.
  destruct (login_accepts_configured_pair unset_admin
              {| Credentials.username := None; Credentials.password := None |})
    as (_ & _ & Hunset).
  apply Hunset; reflexivity.
Defined.

Lemma register_closed (A : AdminEnv) (U : UserFaults) (c : Credentials.t)
      (users : list User.t) :
  users <> [] ->
  snd (post_api_register A U c users) = users.
Proof.
  intros Hne. unfold post_api_register.
  destruct (user_findOne_rejects U); [reflexivity|].
  destruct users; [congruence | reflexivity].
Qed.

Lemma register_at_most_one (A : AdminEnv) (U : UserFaults) (c : Credentials.t) :
  length (snd (post_api_register A U c [])) <= 1.
Proof.
  unfold post_api_register.
  destruct (user_findOne_rejects U); [cbn; lia|].
  destruct (negb _ || negb _); [cbn; lia|].
  cbn zeta. destruct (user_save_rejects U); cbn; lia.
Qed.

(** X23: registration closes behind the first admin.  Once the
    collection of users is not empty, no run of registrations changes it,
    whatever the bodies are; and from the empty collection no run of
    registrations leaves more than one user. *)
Theorem register_is_one_time
        (A : AdminEnv) (requests : list (UserFaults * Credentials.t))
        (users : list User.t) :
  (users <> [] -> register_all A requests users = users)
  /\ length (register_all A requests []) <= 1.
Proof.
  assert (forall reqs us, us <> [] -> register_all A reqs us = us) as Hclosed.
  { induction reqs as [|[U c] reqs IH]; intros us Hne; [reflexivity|].
    cbn [register_all]. rewrite (register_closed A U c us Hne). now apply IH. }
  split; [apply Hclosed|].
  destruct requests as [|[U c] reqs]; [cbn; lia|].
  induction reqs as [|[U' c'] reqs IH] in U, c |- *.
  - cbn [register_all]. apply register_at_most_one.
  - cbn [register_all].
    pose proof (register_at_most_one A U c) as Hone.
    destruct (snd (post_api_register A U c [])) as [|u us] eqn:Hfirst.
    + apply (IH U' c').
    + rewrite (register_closed A U' c' (u :: us)) by discriminate.
      rewrite Hclosed by discriminate. exact Hone.
Qed.

Lemma register_is_one_time_witness :
  register_all demo_admin [(no_user_faults, admin_body)]
    (snd (post_api_register demo_admin no_user_faults admin_body []))
  = snd (post_api_register demo_admin no_user_faults admin_body []).
Proof.
  apply (register_is_one_time demo_admin [(no_user_faults, admin_body)]).
  vm_compute. discriminate.
Defined.

(** X24: [POST /api/register] answers success exactly when there is no
    user yet, username and password are both non-empty and neither query
    rejects; the collection then holds that one user, with the hash in
    the place of the password.  In every other case the collection is
    unchanged; and once a user exists the answer is 403 whatever the body
    is, the body being looked at only after that check. *)
Theorem register_answer_classified
        (A : AdminEnv) (U : UserFaults) (c : Credentials.t) (users : list User.t) :
  (fst (post_api_register A U c users) = Created
   <-> users = []
       /\ Js.truthy_opt (Credentials.username c) = true
       /\ Js.truthy_opt (Credentials.password c) = true
       /\ user_findOne_rejects U = None
       /\ user_save_rejects U = None)
  /\ (fst (post_api_register A U c users) = Created ->
      exists username password,
        Credentials.username c = Some username
        /\ Credentials.password c = Some password
        /\ snd (post_api_register A U c users)
           = [{| User.username := username;
                 User.password := bcrypt_hash A password |}])
  /\ (fst (post_api_register A U c users) <> Created ->
      snd (post_api_register A U c users) = users)
  /\ (users <> [] -> user_findOne_rejects U = None ->
      fst (post_api_register A U c users)
      = Refused 403 "Admin already exists. Registration is disabled.").
Proof.
  unfold post_api_register.
  destruct (user_findOne_rejects U) as [msg|] eqn:Hfind.
  { cbn [fst snd]. repeat split; try discriminate; try tauto.
    intros H; decompose [and] H; discriminate. }
  destruct users as [|admin users].
  2:{ cbn [fst snd]. repeat split; try discriminate; try tauto.
      intros H; decompose [and] H; discriminate. }
  destruct (Credentials.username c) as [username|] eqn:Huser; cbn [Js.truthy_opt].
  2:{ cbn [negb orb fst snd]. repeat split; try discriminate; try tauto.
      intros H; decompose [and] H; discriminate. }
  destruct (Js.truthy username) eqn:Hu; cbn [negb orb].
  2:{ cbn [fst snd]. repeat split; try discriminate; try tauto.
      intros H; decompose [and] H; discriminate. }
  destruct (Credentials.password c) as [password|] eqn:Hpass; cbn [Js.truthy_opt].
  2:{ cbn [negb fst snd]. repeat split; try discriminate; try tauto.
      intros H; decompose [and] H; discriminate. }
  destruct (Js.truthy password) eqn:Hp; cbn [negb].
  2:{ cbn [fst snd]. repeat split; try discriminate; try tauto.
      intros H; decompose [and] H; discriminate. }
  cbn zeta. rewrite (or_default_truthy username "" Hu),
    (or_default_truthy password "" Hp).
  destruct (user_save_rejects U) as [msg|] eqn:Hsave; cbn [fst snd app].
  - repeat split; try discriminate; try tauto.
    intros H; decompose [and] H; discriminate.
  - repeat split; try discriminate; try tauto; try congruence.
    intros _. exists username, password. repeat split.
Qed.

Lemma register_answer_classified_witness :
  fst (post_api_register demo_admin no_user_faults admin_body []) = Created
  /\ (exists username password,
        Credentials.username admin_body = Some username
        /\ Credentials.password admin_body = Some password
        /\ snd (post_api_register demo_admin no_user_faults admin_body [])
           = [{| User.username := username;
                 User.password := bcrypt_hash demo_admin password |}]).
Proof.
  destruct (register_answer_classified demo_admin no_user_faults admin_body [])
    as (Hiff & Hstored & _ & _).
  assert (fst (post_api_register demo_admin no_user_faults admin_body []) = Created)
    as Hcreated by (apply Hiff; repeat split).
  split; [exact Hcreated | exact (Hstored Hcreated)].
Defined.

Lemma filename_truthy_always (body_key : option string) (originalname : string)
      (now : N) :
  Js.truthy (storage.filename body_key originalname now) = true.
Proof.
  unfold storage.filename. cbn zeta.
  change (Js.of_number now ++ "_" ++ ?rest)
    with (Js.of_number now ++ String "_" rest).
  apply truthy_app_cons.
Qed.

(** X25: uploading a file for a key that has no document, to a path that
    holds no file, and then deleting that key brings back the store as it
    was before the two requests, when nothing fails. *)
Theorem upload_then_delete_restores
        (E : Env) (req : UploadRequest) (st : Store)
        (key originalname data : string) :
  body_key req = Some key ->
  Js.truthy key = true ->
  image req = Some (originalname, data) ->
  pics st !! key = None ->
  uploads st
    !! upload_path E (storage.filename (key_at_filename req) originalname (now req))
  = None ->
  delete_api_images_key E no_faults key (snd (upload_route E no_faults req st))
  = (Resolved (deleted key), st).
Proof.
  intros Hbody Hkey Himg Hfresh Hfree.
  set (name := storage.filename (key_at_filename req) originalname (now req)) in *.
  assert (snd (upload_route E no_faults req st)
          = {| pics := <[key := (file_url E name, name)]> (pics st);
               uploads := <[upload_path E name := data]> (uploads st) |}) as ->.
  { rewrite upload_route_store. cbn zeta. rewrite Hbody.
    unfold stored_file. rewrite Himg. fold name. rewrite Hkey.
    cbn [no_faults findOne_rejects findOneAndUpdate_rejects andb negb File.filename].
    unfold after_cleanup. rewrite after_multer_pics, Hfresh.
    unfold after_multer. rewrite Himg. reflexivity. }
  rewrite delete_api_images_key_run.
  cbn [no_faults findOneAndDelete_rejects pics uploads]. cbn zeta.
  rewrite lookup_insert_eq. subst name. rewrite filename_truthy_always.
  rewrite unlink_if_exists_run. cbn [no_faults unlink_errors snd pics uploads].
  rewrite (delete_insert_id _ _ _ Hfresh), (delete_insert_id _ _ _ Hfree).
  now destruct st.
Qed.

Lemma upload_then_delete_restores_witness :
  delete_api_images_key demo_env no_faults "hero"
    (snd (upload_route demo_env no_faults hero_request logo_store))
  = (Resolved (deleted "hero"), logo_store).
Proof.
  apply (upload_then_delete_restores demo_env hero_request logo_store
           "hero" "hero banner.jpg" "HHHH").
  - reflexivity.
  - reflexivity.
  - reflexivity.
  - vm_compute. reflexivity.
  - vm_compute. reflexivity.
Defined.
